(** * scrape_city_infobox: a shallow embedding and its verified properties

    The program is one linear pipeline: fetch a page, parse its infobox
    into a label-to-value dict, select a fixed list of canonical fields,
    print them.  This development embeds

    - the Python [str] operations the program uses ([split], [strip],
      [join], [lower], [in], [replace]),
    - the BeautifulSoup tree and the queries the program makes on it
      ([find], [find_all], [get_text]),
    - the insertion-ordered [dict] with item assignment and [setdefault],
    - the three functions [fetch_city_page_html], [parse_infobox],
      [select_interesting_fields] and the command line driver [main],
      the latter in a small monad with a print log, a request log,
      exceptions and [sys.exit].

    Model boundaries.  A character is a code point below 256 (the type
    [ascii]); on that range [isspace] and [lower] are those of Python's
    [str].  The markup parser and the HTTP client are libraries outside
    the repository: a document is the tree the markup parser built, and
    the network is a function from the requested URL to what the client
    gives back. *)

From Stdlib Require Import Strings.String Strings.Ascii Lists.List Bool.Bool.
From Stdlib Require Import NArith.NArith ZArith.ZArith Arith.PeanoNat.
From Stdlib Require Import micromega.Lia Numbers.DecimalString.
Import ListNotations.

Local Open Scope string_scope.
Local Open Scope list_scope.

Set Warnings "-register-all".

(** ** Python strings *)

Module PyStr.

(** [c.isspace()] for a code point below 256: TAB, LF, VT, FF, CR, the
    four separators FS, GS, RS, US, the space, NEL and the no-break space. *)
Definition isspace (c : ascii) : bool :=
  let n := N_of_ascii c in
  ((9 <=? n) && (n <=? 13) || (28 <=? n) && (n <=? 32)
   || (n =? 133) || (n =? 160))%N.

(** [c.lower()] for a code point below 256: the letters A-Z and the
    accented capitals U+00C0..U+00DE, the multiplication sign apart. *)
Definition lower_char (c : ascii) : ascii :=
  let n := N_of_ascii c in
  if ((65 <=? n) && (n <=? 90)
      || (192 <=? n) && (n <=? 222) && negb (n =? 215))%N
  then ascii_of_N (n + 32) else c.

(** [s.lower()] *)
Fixpoint lower (s : string) : string :=
  match s with
  | EmptyString => EmptyString
  | String c r => String (lower_char c) (lower r)
  end.

(** [needle in hay] *)
Fixpoint contains (needle hay : string) : bool :=
  prefix needle hay
  || match hay with
     | EmptyString => false
     | String _ r => contains needle r
     end.

(** Truthiness of a string: [if s] holds for the non-empty ones. *)
Definition truthy (s : string) : bool :=
  match s with EmptyString => false | String _ _ => true end.

(** The word being read by [split], most recent character first. *)
Definition flush (acc : list ascii) : list string :=
  match acc with
  | [] => []
  | _ :: _ => [string_of_list_ascii (rev acc)]
  end.

Fixpoint split_from (acc : list ascii) (s : string) : list string :=
  match s with
  | EmptyString => flush acc
  | String c r =>
      if isspace c then flush acc ++ split_from [] r
      else split_from (c :: acc) r
  end.

(** [s.split()]: the maximal runs of non-whitespace characters. *)
Definition split (s : string) : list string := split_from [] s.

(** [sep.join(parts)] *)
Fixpoint join (sep : string) (parts : list string) : string :=
  match parts with
  | [] => EmptyString
  | [p] => p
  | p :: rest => p ++ sep ++ join sep rest
  end.

Fixpoint lstrip (s : string) : string :=
  match s with
  | EmptyString => EmptyString
  | String c r => if isspace c then lstrip r else s
  end.

Fixpoint rstrip (s : string) : string :=
  match s with
  | EmptyString => EmptyString
  | String c r =>
      match rstrip r with
      | EmptyString => if isspace c then EmptyString else String c EmptyString
      | r' => String c r'
      end
  end.

(** [s.strip()] *)
Definition strip (s : string) : string := rstrip (lstrip s).

(** [s.replace(old, new)] for a pattern [old] of one character. *)
Fixpoint replace1 (old : ascii) (new : string) (s : string) : string :=
  match s with
  | EmptyString => EmptyString
  | String c r =>
      if Ascii.eqb c old then new ++ replace1 old new r
      else String c (replace1 old new r)
  end.

End PyStr.

(** ** The insertion-ordered dict

    Order is observable (the selector takes the first matching label in
    insertion order), so a dict is its list of items, oldest first, with
    each key at most once. *)

Module Dict.

Definition t := list (string * string).

Definition keys (d : t) : list string := map fst d.

(** [d.get(k)], and [d[k]] where the key is present *)
Fixpoint get (k : string) (d : t) : option string :=
  match d with
  | [] => None
  | (k', v') :: r => if String.eqb k' k then Some v' else get k r
  end.

(** [d[k] = v]: an existing key keeps its place, a new one goes last. *)
Fixpoint set (k v : string) (d : t) : t :=
  match d with
  | [] => [(k, v)]
  | (k', v') :: r =>
      if String.eqb k' k then (k', v) :: r else (k', v') :: set k v r
  end.

(** [d.setdefault(k, v)], for the dict it leaves behind *)
Definition setdefault (k v : string) (d : t) : t :=
  match get k d with
  | Some _ => d
  | None => d ++ [(k, v)]
  end.

(** Truthiness of a dict: [if not d] holds for the empty one. *)
Definition truthy (d : t) : bool :=
  match d with [] => false | _ :: _ => true end.

Definition wf (d : t) : Prop := NoDup (keys d).

End Dict.

(** ** The document tree and its queries *)

Module Soup.

(** A node of the tree: a text string, a comment (a string that
    [get_text] leaves out), or a tag with its attribute dict and its
    children.  The document itself is a tag. *)
Inductive node : Type :=
| NavigableString (s : string)
| Comment (s : string)
| Tag (name : string) (attrs : Dict.t) (contents : list node).

(** [tag.descendants]: every node below the tag, in document order. *)
Fixpoint descendants (n : node) : list node :=
  match n with
  | Tag _ _ contents => flat_map (fun c => c :: descendants c) contents
  | _ => []
  end.

Definition has_name (name : string) (n : node) : bool :=
  match n with
  | Tag name' _ _ => String.eqb name' name
  | _ => false
  end.

(** The value list of the multi-valued [class] attribute. *)
Definition classes (n : node) : option (list string) :=
  match n with
  | Tag _ attrs _ => option_map PyStr.split (Dict.get "class" attrs)
  | _ => None
  end.

(** The [class_=want] filter: one of the values is [want], or the values
    joined by single spaces are. *)
Definition has_class (want : string) (n : node) : bool :=
  match classes n with
  | Some values =>
      existsb (String.eqb want) values
      || String.eqb (PyStr.join " " values) want
  | None => false
  end.

Definition has_id (want : string) (n : node) : bool :=
  match n with
  | Tag _ attrs _ =>
      match Dict.get "id" attrs with
      | Some v => String.eqb v want
      | None => false
      end
  | _ => false
  end.

(** [tag.find(...)]: the first descendant that passes the filter. *)
Definition find (filter : node -> bool) (n : node) : option node :=
  List.find filter (descendants n).

(** [tag.find_all(...)] *)
Definition find_all (filter : node -> bool) (n : node) : list node :=
  List.filter filter (descendants n).

Definition text_of (n : node) : list string :=
  match n with
  | NavigableString s => [s]
  | _ => []
  end.

(** The strings [get_text(strip=True)] joins: each text string below the
    tag, stripped, the empty ones left out. *)
Definition stripped_strings (n : node) : list string :=
  List.filter PyStr.truthy
    (map PyStr.strip (flat_map text_of (descendants n))).

(** [tag.get_text(separator=sep, strip=True)] *)
Definition get_text (sep : string) (n : node) : string :=
  PyStr.join sep (stripped_strings n).

End Soup.

Import Soup.

(** ** parse_infobox *)

(** [" ".join(cell.get_text(separator=" ", strip=True).split())] *)
Definition normalized_text (cell : node) : string :=
  PyStr.join " " (PyStr.split (get_text " " cell)).

(** The body of the loop over the rows of the infobox. *)
Definition scan_row (info : Dict.t) (row : node) : Dict.t :=
  match find (has_name "th") row, find (has_name "td") row with
  | Some header_cell, Some data_cell =>
      let label := normalized_text header_cell in
      let value_text := normalized_text data_cell in
      if PyStr.truthy label && PyStr.truthy value_text
      then Dict.set label value_text info
      else info
  | _, _ => info
  end.

Definition table_with_class (cls : string) (n : node) : bool :=
  has_name "table" n && has_class cls n.

(** [a or b] on the results of [find]: a tag is always truthy. *)
Definition or_else (a b : option node) : option node :=
  match a with Some _ => a | None => b end.

Definition find_infobox (soup : node) : option node :=
  or_else (find (table_with_class "infobox geography vcard") soup)
    (or_else (find (table_with_class "infobox vcard") soup)
       (find (table_with_class "infobox") soup)).

(** The dict after the loop over the table rows (lines 47 to 56). *)
Definition table_fields (soup : node) : Dict.t :=
  match find_infobox soup with
  | Some infobox => fold_left scan_row (find_all (has_name "tr") infobox) []
  | None => []
  end.

(** [parse_infobox] from the parsed tree on. *)
Definition parse_soup (soup : node) : option string * Dict.t * node :=
  let title_element := find (has_id "firstHeading") soup in
  let page_title := option_map (get_text "") title_element in
  let info := table_fields soup in
  let geo := find (has_class "geo") soup in
  let info :=
    match geo with
    | Some geo => Dict.setdefault "Coordinates" (normalized_text geo) info
    | None => info
    end in
  (page_title, info, soup).

(** The [fields] mapping of the parser's result. *)
Definition fields (soup : node) : Dict.t := snd (fst (parse_soup soup)).

(** ** select_interesting_fields *)

Definition desired_to_label_hints : list (string * list string) :=
  [ ("Country", ["Country"]);
    ("State/Province", ["State"; "Province"; "Region"; "Prefecture"]);
    ("County/District", ["County"; "District"; "Municipality"]);
    ("Settlement type", ["Settlement type"; "Type"]);
    ("Incorporated/Founded", ["Incorporated"; "Established"; "Founded"]);
    ("Mayor/Leader", ["Mayor"; "Leader"; "Governing body"]);
    ("Area total", ["Area total"; "Area"; "Area Total"]);
    ("Elevation", ["Elevation"]);
    ("Population", ["Population"; "Population Total"; "Population ("]);
    ("Demonym", ["Demonym"]);
    ("Time zone", ["Time zone"; "Timezone"]);
    ("Postal code", ["Postal code"; "Postcode"; "ZIP codes"]);
    ("FIPS/GNIS", ["FIPS code"; "GNIS feature ID"]);
    ("Coordinates", ["Coordinates"]) ].

(** [{label: label.lower() for label in info.keys()}] *)
Definition original_to_lower (info : Dict.t) : Dict.t :=
  fold_left (fun d original_label =>
               Dict.set original_label (PyStr.lower original_label) d)
    (Dict.keys info) [].

(** The innermost loop: the labels in order, left at the first match
    with [found_value] set to [info[original_label]].  The labels are
    keys of [info], so the lookup finds a value. *)
Fixpoint scan_labels (info : Dict.t) (hint_lower : string)
    (items : Dict.t) : option string :=
  match items with
  | [] => None
  | (original_label, lowered) :: rest =>
      if PyStr.contains hint_lower lowered
      then Dict.get original_label info
      else scan_labels info hint_lower rest
  end.

(** The loop over the hints of one entry, left once a value is found. *)
Fixpoint scan_hints (info lowered_index : Dict.t)
    (label_hints : list string) : option string :=
  match label_hints with
  | [] => None
  | hint :: rest =>
      match scan_labels info (PyStr.lower hint) lowered_index with
      | Some found_value => Some found_value
      | None => scan_hints info lowered_index rest
      end
  end.

Definition select_entry (info lowered_index : Dict.t)
    (selected : Dict.t) (entry : string * list string) : Dict.t :=
  let '(output_key, label_hints) := entry in
  match scan_hints info lowered_index label_hints with
  | Some found_value => Dict.set output_key found_value selected
  | None => selected
  end.

Definition select_interesting_fields (info : Dict.t) : Dict.t :=
  fold_left (select_entry info (original_to_lower info))
    desired_to_label_hints [].

(** ** The command line program

    What the program does to the outside is kept in a [world]: the lines
    it printed and the URLs it requested, oldest first.  A computation
    ends by returning, by raising one of the HTTP client's exceptions,
    or by [sys.exit]. *)

Module Prog.

(** [HTTPError] is the client's exception for an error status;
    [RequestException] stands for every other exception of the client
    (connection, timeout, ...), of which [HTTPError] is a subclass. *)
Inductive exn : Type :=
| HTTPError (msg : string)
| RequestException (msg : string).

Record world : Type := World { stdout : list string; requested : list string }.

Inductive result (A : Type) : Type :=
| Return (a : A)
| Raise (e : exn)
| SysExit (code : Z).

Arguments Return {A} a.
Arguments Raise {A} e.
Arguments SysExit {A} code.

Definition M (A : Type) : Type := world -> result A * world.

Definition ret {A} (a : A) : M A := fun w => (Return a, w).

Definition bind {A B} (m : M A) (k : A -> M B) : M B :=
  fun w =>
    match m w with
    | (Return a, w') => k a w'
    | (Raise e, w') => (Raise e, w')
    | (SysExit c, w') => (SysExit c, w')
    end.

Definition raise {A} (e : exn) : M A := fun w => (Raise e, w).

Definition sys_exit {A} (code : Z) : M A := fun w => (SysExit code, w).

Definition print (line : string) : M unit :=
  fun w => (Return tt, World (stdout w ++ [line]) (requested w)).

(** [try: m  except HTTPError/RequestException as e: handler e] *)
Definition try_except {A} (m : M A) (handler : exn -> M A) : M A :=
  fun w =>
    match m w with
    | (Raise e, w') => handler e w'
    | r => r
    end.

(** [if cond: body] *)
Definition when (cond : bool) (body : M unit) : M unit :=
  if cond then body else ret tt.

(** [for x in xs: body x] *)
Fixpoint for_each {A} (xs : list A) (body : A -> M unit) : M unit :=
  match xs with
  | [] => ret tt
  | x :: rest => bind (body x) (fun _ => for_each rest body)
  end.

(** The exit status of the process that runs [m] as its main function:
    0 when it returns, the argument of [sys.exit], 1 when an exception
    reaches the top level. *)
Definition exit_status {A} (r : result A) : Z :=
  match r with
  | Return _ => 0
  | Raise _ => 1
  | SysExit c => c
  end%Z.

End Prog.

Import Prog.

Declare Scope prog_scope.
Delimit Scope prog_scope with prog.
Notation "x <- m ;; k" := (bind m (fun x => k))
  (at level 61, m at next level, right associativity) : prog_scope.
Notation "m ;; k" := (bind m (fun _ => k))
  (at level 61, right associativity) : prog_scope.

Definition USER_AGENT : string :=
  "Mozilla/5.0 (X11; Linux x86_64) AppleWebKit/537.36 "
  ++ "(KHTML, like Gecko) Chrome/124.0 Safari/537.36 LocalInfoScraper/1.0".

(** The response object of the HTTP client, as far as the program reads it. *)
Module Requests.

Record Response : Type := {
  status_code : Z;
  reason : string;
  text : string;
  url : string
}.

End Requests.

Definition decimal (n : Z) : string := NilZero.string_of_int (Z.to_int n).

(** The message [raise_for_status] builds: one for a client error
    status, one for a server error status, none otherwise. *)
Definition http_error_msg (response : Requests.Response) : option string :=
  let code := Requests.status_code response in
  let tail :=
    (Requests.reason response ++ " for url: " ++ Requests.url response)%string
  in
  if ((400 <=? code) && (code <? 500))%Z
  then Some (decimal code ++ " Client Error: " ++ tail)%string
  else if ((500 <=? code) && (code <? 600))%Z
  then Some (decimal code ++ " Server Error: " ++ tail)%string
  else None.

(** [response.raise_for_status()] *)
Definition raise_for_status (response : Requests.Response) : M unit :=
  match http_error_msg response with
  | Some msg => raise (HTTPError msg)
  | None => ret tt
  end.

Definition headers : Dict.t := [("User-Agent", USER_AGENT)].

(** [city_name.replace(" ", "_")] *)
Definition canonical_name (city_name : string) : string :=
  PyStr.replace1 " " "_" city_name.

(** The URL of line 22. *)
Definition request_url (city_name : string) : string :=
  "https://en.wikipedia.org/wiki/" ++ canonical_name city_name.

Section Program.

(** The HTTP client: what [requests.get(url, headers=..., timeout=...)]
    gives for a request, an exception or a response. *)
Variable requests_get : string -> Dict.t -> Z -> exn + Requests.Response.

(** The markup parser, [BeautifulSoup(html_text, "html.parser")]. *)
Variable BeautifulSoup : string -> node.

Definition http_get (url : string) (headers : Dict.t) (timeout : Z)
    : M Requests.Response :=
  fun w =>
    let w' := World (stdout w) (requested w ++ [url]) in
    match requests_get url headers timeout with
    | inl e => (Raise e, w')
    | inr response => (Return response, w')
    end.

Definition fetch_city_page_html (city_name : string) : M (string * string) :=
  (let url := request_url city_name in
   response <- http_get url headers 20 ;;
   raise_for_status response ;;
   ret (Requests.text response, Requests.url response))%prog.

Definition parse_infobox (html_text : string)
    : option string * Dict.t * node :=
  let soup := BeautifulSoup html_text in
  parse_soup soup.

(** [page_title or city_name] *)
Definition title_or (page_title : option string) (city_name : string)
    : string :=
  match page_title with
  | Some t => if PyStr.truthy t then t else city_name
  | None => city_name
  end.

(** The two lines printed after every successful fetch. *)
Definition heading (city_name : string) (response : Requests.Response)
    : list string :=
  [("Title: "
    ++ title_or (fst (fst (parse_infobox (Requests.text response))))
         city_name)%string;
   ("Source: " ++ Requests.url response)%string].

Definition usage_message : string :=
  "Usage: python scrape_city_infobox.py " ++ String "034" "City Name"
  ++ String "034" "".

Definition no_infobox_message : string :=
  "Could not find an infobox on the page or it is empty.".

Definition no_fields_message : string :=
  "No common local information fields were detected.".

(** [main], with [argv] the whole of [sys.argv]. *)
Definition main (argv : list string) : M unit :=
  (when (length argv <? 2)%nat
     (print usage_message ;; sys_exit 1) ;;
   let city_name := PyStr.join " " (tl argv) in
   fetched <-
     try_except (fetch_city_page_html city_name)
       (fun e =>
          match e with
          | HTTPError http_error =>
              print ("HTTP error fetching page: " ++ http_error) ;;
              sys_exit 2
          | RequestException request_error =>
              print ("Network error fetching page: " ++ request_error) ;;
              sys_exit 2
          end) ;;
   let '(html_text, resolved_url) := fetched in
   let '(page_title, info_map, _soup) := parse_infobox html_text in
   print ("Title: " ++ title_or page_title city_name) ;;
   print ("Source: " ++ resolved_url) ;;
   when (negb (Dict.truthy info_map))
     (print no_infobox_message ;; sys_exit 0) ;;
   let interesting := select_interesting_fields info_map in
   when (negb (Dict.truthy interesting))
     (print no_fields_message ;; sys_exit 0) ;;
   for_each interesting
     (fun '(key, value) => print (key ++ ": " ++ value)))%prog.

(** Running the program from a fresh process. *)
Definition run (argv : list string) : result unit * world :=
  main argv (World [] []).

(** The exit status of that process, what it printed and what it
    requested. *)
Definition exit_code (argv : list string) : Z :=
  exit_status (fst (run argv)).

Definition printed (argv : list string) : list string :=
  stdout (snd (run argv)).

Definition requests_made (argv : list string) : list string :=
  requested (snd (run argv)).

End Program.

(** ** Reference definitions, in the words of the specification *)

(** What a row contributes to the dict: its normalized label and value,
    when it has both cells and neither text is empty. *)
Definition row_label (row : node) : option string :=
  option_map normalized_text (find (has_name "th") row).

Definition row_value (row : node) : option string :=
  option_map normalized_text (find (has_name "td") row).

Definition stored (row : node) : option (string * string) :=
  match row_label row, row_value row with
  | Some label, Some value =>
      if PyStr.truthy label && PyStr.truthy value
      then Some (label, value) else None
  | _, _ => None
  end.

(** A label matches a hint when its lowercased text contains the
    lowercased hint. *)
Definition label_matches (hint : string) (item : string * string) : bool :=
  PyStr.contains (PyStr.lower hint) (PyStr.lower (fst item)).

(** The value of the first label, in insertion order, that matches. *)
Definition first_match (fields : Dict.t) (hint : string) : option string :=
  option_map snd (List.find (label_matches hint) fields).

(** The hints in order, up to the first that gives a value. *)
Fixpoint first_hint_value (fields : Dict.t) (hints : list string)
    : option string :=
  match hints with
  | [] => None
  | hint :: rest =>
      match first_match fields hint with
      | Some v => Some v
      | None => first_hint_value fields rest
      end
  end.

(** One item per canonical entry that has a value, in canonical order. *)
Definition select_spec (fields : Dict.t) : Dict.t :=
  flat_map
    (fun entry : string * list string =>
       match first_hint_value fields (snd entry) with
       | Some v => [(fst entry, v)]
       | None => []
       end)
    desired_to_label_hints.

(** The tables the three class patterns of the parser accept. *)
Definition infobox_table (n : node) : bool :=
  table_with_class "infobox geography vcard" n
  || table_with_class "infobox vcard" n
  || table_with_class "infobox" n.

(** What [replace(" ", "_")] does to one character. *)
Definition underscore (c : ascii) : ascii :=
  if Ascii.eqb c " " then "_"%char else c.

Definition lowered (item : string * string) : string * string :=
  (fst item, PyStr.lower (fst item)).

(** The items one canonical entry adds. *)
Definition entry_items (value_of : list string -> option string)
    (entry : string * list string) : Dict.t :=
  match value_of (snd entry) with
  | Some v => [(fst entry, v)]
  | None => []
  end.

Definition no_infobox_table (soup : node) : Prop :=
  forall d, In d (descendants soup) -> infobox_table d = false.

Definition no_geo_element (soup : node) : Prop :=
  forall d, In d (descendants soup) -> has_class "geo" d = false.

(** ** Sample documents *)

Definition document (contents : list node) : node :=
  Tag "[document]" [] contents.

Definition tr (header data : string) : node :=
  Tag "tr" []
    [Tag "th" [] [NavigableString header];
     Tag "td" [] [NavigableString data]].

Definition infobox_of (rows : list node) : node :=
  Tag "table" [("class", "infobox vcard")] [Tag "tbody" [] rows].

Definition geo_span (coords : string) : node :=
  Tag "span" [("class", "geo")] [NavigableString coords].

(** A page with a coordinate marker and no table at all. *)
Definition geo_only_page : node := document [geo_span "35.68; 139.69"].

(** A page whose coordinate marker has no text. *)
Definition empty_geo_page : node :=
  document [Tag "span" [("class", "geo")] []].

(** Two rows labelled Elevation, the second with a blank data cell. *)
Definition blank_second_elevation_page : node :=
  document [infobox_of [tr "Elevation" "10 m"; tr "Elevation" " "]].

Definition population_text : string :=
  "  38,000,000  " ++ String "010" " ".

Definition population_page : node :=
  document [infobox_of [tr "Population" population_text]].

Definition unmatched_labels_page : node :=
  document [infobox_of [tr "Website" "example.org"]].

Definition ok_response (body : string) : Requests.Response :=
  {| Requests.status_code := 200; Requests.reason := "OK";
     Requests.text := body;
     Requests.url := "https://en.wikipedia.org/wiki/Tokyo" |}.

Definition not_found_response : Requests.Response :=
  {| Requests.status_code := 404; Requests.reason := "Not Found";
     Requests.text := "";
     Requests.url := "https://en.wikipedia.org/wiki/Nowhere" |}.

Definition plain_table_page : node :=
  document [Tag "table" [("class", "wikitable sortable")] [tr "Area" "5"]].

Definition elevation_rows : list node :=
  [tr "Elevation" "10 m"; tr "Elevation" " "].

Definition two_elevations_page : node :=
  document [infobox_of [tr "Elevation" "10 m"; tr "Elevation" "12 m";
                        tr "Elevation" " "]].

Definition table_and_geo_page : node :=
  document [infobox_of [tr "Coordinates" "1 N 2 E"]; geo_span "1.0; 2.0"].

Definition offline : string -> Dict.t -> Z -> exn + Requests.Response :=
  fun _ _ _ => inl (RequestException "connection refused").

Definition serves (response : Requests.Response)
    : string -> Dict.t -> Z -> exn + Requests.Response :=
  fun _ _ _ => inr response.

Definition parses_to (soup : node) : string -> node := fun _ => soup.

(** ** Words and lines *)

(** A word of [split]: not empty, no whitespace in it. *)
Definition word (w : string) : Prop :=
  w <> "" /\ Forall (fun c => PyStr.isspace c = false) (list_ascii_of_string w).

(** The line [main] prints for a selected field. *)
Definition field_line (item : string * string) : string :=
  (fst item ++ ": " ++ snd item)%string.

(** Whether a canonical entry gets a value from [info]. *)
Definition has_value (info : Dict.t) (entry : string * list string) : bool :=
  match first_hint_value info (snd entry) with
  | Some _ => true
  | None => false
  end.

(** Two items with the same label up to case and the same value. *)
Definition same_up_to_case (x y : string * string) : Prop :=
  PyStr.lower (fst x) = PyStr.lower (fst y) /\ snd x = snd y.

(** The labels the rows store, in scan order, duplicates included. *)
Definition stored_labels (rows : list node) : list string :=
  flat_map
    (fun row =>
       match stored row with
       | Some (label, _) => [label]
       | None => []
       end)
    rows.

(** A list without the later occurrences of its elements. *)
Definition first_occurrences (l : list string) : list string :=
  rev (nodup string_dec (rev l)).

Definition coordinates_page : node :=
  document [infobox_of [tr "Country" "Japan"]; geo_span "35.68; 139.69"].

(** * Properties *)

(** ** Strings *)

Lemma truthy_nonempty (s : string) : PyStr.truthy s = true <-> s <> "".
Proof.
  destruct s; simpl; split; intro H; try discriminate; try reflexivity.
  now elim H.
Qed.

Lemma prefix_app (n h : string) :
  prefix n h = true <-> exists post, h = (n ++ post)%string.
Proof.
  revert h. induction n as [|a n IH]; intro h.
  - destruct h; simpl; split; eauto.
  - destruct h as [|b h]; simpl.
    + split; [discriminate | intros [post H]; discriminate H].
    + destruct (ascii_dec a b) as [<-|Hne].
      * rewrite IH. split; intros [post H]; exists post.
        -- now rewrite H.
        -- now injection H.
      * split; [discriminate|]. intros [post H].
        injection H as H _. now elim Hne.
Qed.

(** [needle in hay] holds exactly when [needle] is a substring of [hay]. *)
Lemma contains_substring (n h : string) :
  PyStr.contains n h = true
  <-> exists pre post, h = (pre ++ n ++ post)%string.
Proof.
  induction h as [|c r IH].
  - change (PyStr.contains n "") with (prefix n "" || false).
    rewrite orb_false_r, prefix_app. split.
    + intros [post H]. exists "", post. exact H.
    + intros (pre & post & H). exists post.
      destruct pre; [exact H | discriminate H].
  - change (PyStr.contains n (String c r))
      with (prefix n (String c r) || PyStr.contains n r).
    rewrite orb_true_iff, IH, prefix_app. split.
    + intros [[post H]|(pre & post & H)].
      * exists "", post. exact H.
      * exists (String c pre), post. simpl. now rewrite H.
    + intros (pre & post & H). destruct pre as [|c' pre].
      * left. exists post. exact H.
      * right. exists pre, post. simpl in H. now injection H.
Qed.

(** ** Dicts *)

Lemma get_set_same (k v : string) (d : Dict.t) :
  Dict.get k (Dict.set k v d) = Some v.
Proof.
  induction d as [|[k' v'] r IH]; simpl.
  - now rewrite String.eqb_refl.
  - destruct (String.eqb k' k) eqn:E; simpl; rewrite E; auto.
Qed.

Lemma get_set_other (k k0 v : string) (d : Dict.t) :
  k0 <> k -> Dict.get k (Dict.set k0 v d) = Dict.get k d.
Proof.
  intro Hne.
  induction d as [|[k' v'] r IH]; simpl.
  - destruct (String.eqb k0 k) eqn:E; auto.
    apply String.eqb_eq in E. contradiction.
  - destruct (String.eqb k' k0) eqn:E0; simpl.
    + apply String.eqb_eq in E0. subst k'.
      destruct (String.eqb k0 k) eqn:E; auto.
      apply String.eqb_eq in E. contradiction.
    + now rewrite IH.
Qed.

Lemma get_none_notin (k : string) (d : Dict.t) :
  Dict.get k d = None <-> ~ In k (Dict.keys d).
Proof.
  induction d as [|[k' v'] r IH]; simpl.
  - tauto.
  - destruct (String.eqb k' k) eqn:E.
    + apply String.eqb_eq in E. split; [discriminate | intro H; elim H; auto].
    + apply String.eqb_neq in E. rewrite IH. tauto.
Qed.

Lemma get_in (k v : string) (d : Dict.t) :
  Dict.get k d = Some v -> In (k, v) d.
Proof.
  induction d as [|[k' v'] r IH]; simpl; [discriminate|].
  destruct (String.eqb k' k) eqn:E.
  - apply String.eqb_eq in E. subst k'. intro H. injection H as H.
    subst v'. auto.
  - auto.
Qed.

Lemma in_get (k v : string) (d : Dict.t) :
  Dict.wf d -> In (k, v) d -> Dict.get k d = Some v.
Proof.
  unfold Dict.wf.
  induction d as [|[k' v'] r IH]; simpl; [tauto|].
  intros Hnd [Heq | Hin].
  - injection Heq as -> ->. now rewrite String.eqb_refl.
  - inversion Hnd as [|? ? Hnot Hnd']; subst.
    destruct (String.eqb k' k) eqn:E.
    + apply String.eqb_eq in E. subst k'.
      elim Hnot. change k with (fst (k, v)). now apply in_map.
    + auto.
Qed.

Lemma set_fresh (k v : string) (d : Dict.t) :
  ~ In k (Dict.keys d) -> Dict.set k v d = d ++ [(k, v)].
Proof.
  induction d as [|[k' v'] r IH]; simpl; intro H; auto.
  destruct (String.eqb k' k) eqn:E.
  - apply String.eqb_eq in E. elim H. auto.
  - rewrite IH; tauto.
Qed.

Lemma keys_set (k v : string) (d : Dict.t) :
  Dict.keys (Dict.set k v d)
  = if in_dec string_dec k (Dict.keys d) then Dict.keys d
    else Dict.keys d ++ [k].
Proof.
  induction d as [|[k' v'] r IH]; simpl.
  - reflexivity.
  - destruct (String.eqb k' k) eqn:E.
    + apply String.eqb_eq in E. subst k'. simpl.
      destruct (string_dec k k) as [Y|N]; [reflexivity | now elim N].
    + apply String.eqb_neq in E. simpl. rewrite IH.
      destruct (string_dec k' k) as [Y|N]; [contradiction|].
      destruct (in_dec string_dec k (Dict.keys r)); reflexivity.
Qed.

Lemma wf_set (k v : string) (d : Dict.t) :
  Dict.wf d -> Dict.wf (Dict.set k v d).
Proof.
  unfold Dict.wf. intro H. rewrite keys_set.
  destruct (in_dec string_dec k (Dict.keys d)) as [Hin|Hnot]; auto.
  apply NoDup_app; auto.
  - constructor; [intros [] | constructor].
  - intros x Hx [<-|[]]. contradiction.
Qed.

Lemma in_set (k v k0 v0 : string) (d : Dict.t) :
  In (k, v) (Dict.set k0 v0 d) -> In (k, v) d \/ (k, v) = (k0, v0).
Proof.
  induction d as [|[k' v'] r IH]; simpl.
  - intros [H|[]]; auto.
  - destruct (String.eqb k' k0) eqn:E; simpl.
    + apply String.eqb_eq in E. subst k'.
      intros [H|H]; auto.
    + intros [H|H]; auto. destruct (IH H); auto.
Qed.

Lemma wf_setdefault (k v : string) (d : Dict.t) :
  Dict.wf d -> Dict.wf (Dict.setdefault k v d).
Proof.
  unfold Dict.setdefault. intro H.
  destruct (Dict.get k d) eqn:E; auto.
  apply get_none_notin in E.
  rewrite <- (set_fresh k v d E). now apply wf_set.
Qed.

Lemma get_setdefault (k v : string) (d : Dict.t) :
  Dict.get k (Dict.setdefault k v d)
  = match Dict.get k d with Some v' => Some v' | None => Some v end.
Proof.
  unfold Dict.setdefault.
  destruct (Dict.get k d) eqn:E; auto.
  apply get_none_notin in E.
  rewrite <- (set_fresh k v d E). apply get_set_same.
Qed.

Lemma get_setdefault_other (k k0 v : string) (d : Dict.t) :
  k0 <> k -> Dict.get k (Dict.setdefault k0 v d) = Dict.get k d.
Proof.
  unfold Dict.setdefault. intro Hne.
  destruct (Dict.get k0 d) eqn:E; auto.
  apply get_none_notin in E.
  rewrite <- (set_fresh k0 v d E). now apply get_set_other.
Qed.

(** ** Tree queries *)

Lemma list_find_absent {A} (p : A -> bool) (l : list A) :
  (forall x, In x l -> p x = false) -> List.find p l = None.
Proof.
  induction l as [|a l IH]; simpl; intro H; auto.
  rewrite (H a) by auto. apply IH. auto.
Qed.

Lemma list_find_first {A} (p : A -> bool) (before after : list A) (x : A) :
  (forall y, In y before -> p y = false) -> p x = true ->
  List.find p (before ++ x :: after) = Some x.
Proof.
  induction before as [|a l IH]; simpl; intros H Hx.
  - now rewrite Hx.
  - rewrite (H a) by auto. apply IH; auto.
Qed.

Lemma list_find_split {A} (p : A -> bool) (l : list A) (x : A) :
  List.find p l = Some x ->
  exists before after,
    l = before ++ x :: after /\ (forall y, In y before -> p y = false).
Proof.
  induction l as [|a l IH]; simpl; [discriminate|].
  destruct (p a) eqn:E.
  - intros [= ->]. exists [], l. split; [reflexivity | intros ? []].
  - intro H. destruct (IH H) as (b & c & -> & Hb).
    exists (a :: b), c. split; [reflexivity|].
    intros y [<-|Hy]; auto.
Qed.

Lemma find_absent (p : node -> bool) (n : node) :
  (forall d, In d (descendants n) -> p d = false) -> find p n = None.
Proof. apply list_find_absent. Qed.

Lemma find_present (p : node -> bool) (n d : node) :
  In d (descendants n) -> p d = true ->
  exists g, find p n = Some g /\ In g (descendants n) /\ p g = true.
Proof.
  intros Hin Hp. unfold find.
  destruct (List.find p (descendants n)) as [g|] eqn:E.
  - exists g. split; [reflexivity|]. now apply find_some in E.
  - rewrite (find_none _ _ E d Hin) in Hp. discriminate.
Qed.

Lemma find_infobox_absent (soup : node) :
  (forall d, In d (descendants soup) -> infobox_table d = false) ->
  find_infobox soup = None.
Proof.
  intro H. unfold find_infobox.
  rewrite !find_absent; [reflexivity | | |];
    intros d Hd; specialize (H d Hd); unfold infobox_table in H;
    repeat (apply orb_false_iff in H; destruct H as [H ?]); assumption.
Qed.

(** ** The row scan *)

Lemma scan_row_stored (info : Dict.t) (row : node) :
  scan_row info row
  = match stored row with
    | Some (label, value) => Dict.set label value info
    | None => info
    end.
Proof.
  unfold scan_row, stored, row_label, row_value.
  destruct (find (has_name "th") row), (find (has_name "td") row);
    simpl; try reflexivity.
  destruct (PyStr.truthy _ && PyStr.truthy _); reflexivity.
Qed.

Lemma stored_nonempty (row : node) (k v : string) :
  stored row = Some (k, v) -> k <> "" /\ v <> "".
Proof.
  unfold stored.
  destruct (row_label row) as [l|]; [|discriminate].
  destruct (row_value row) as [x|]; [|discriminate].
  destruct (PyStr.truthy l && PyStr.truthy x) eqn:E; [|discriminate].
  intro H. injection H as <- <-.
  apply andb_true_iff in E. destruct E as [El Ex].
  split; now apply truthy_nonempty.
Qed.

Lemma scan_rows_wf (rows : list node) :
  forall info, Dict.wf info -> Dict.wf (fold_left scan_row rows info).
Proof.
  induction rows as [|r rows IH]; simpl; intros info H; auto.
  apply IH. rewrite scan_row_stored.
  destruct (stored r) as [[l v]|]; auto using wf_set.
Qed.

Lemma scan_rows_get_unstored (rows : list node) (label : string) :
  (forall r, In r rows -> forall v, stored r <> Some (label, v)) ->
  forall info,
    Dict.get label (fold_left scan_row rows info) = Dict.get label info.
Proof.
  induction rows as [|r rows IH]; simpl; intros H info; auto.
  rewrite IH by auto. rewrite scan_row_stored.
  destruct (stored r) as [[l v]|] eqn:E; auto.
  apply get_set_other. intros ->. exact (H r (or_introl eq_refl) v E).
Qed.

Lemma scan_rows_last (before after : list node) (row : node)
    (label value : string) (info : Dict.t) :
  stored row = Some (label, value) ->
  (forall r, In r after -> forall v, stored r <> Some (label, v)) ->
  Dict.get label (fold_left scan_row (before ++ row :: after) info)
  = Some value.
Proof.
  intros Hrow Hafter.
  rewrite fold_left_app. simpl.
  rewrite scan_rows_get_unstored by assumption.
  rewrite scan_row_stored, Hrow. apply get_set_same.
Qed.

Lemma scan_rows_in (rows : list node) (k v : string) :
  forall info,
    In (k, v) (fold_left scan_row rows info) ->
    In (k, v) info \/ exists r, In r rows /\ stored r = Some (k, v).
Proof.
  induction rows as [|r rows IH]; simpl; intros info H; auto.
  destruct (IH _ H) as [Hin | (r' & Hr' & E)].
  - rewrite scan_row_stored in Hin.
    destruct (stored r) as [[l x]|] eqn:E; auto.
    destruct (in_set _ _ _ _ _ Hin) as [?|Heq]; auto.
    right. exists r. rewrite Heq. auto.
  - right. exists r'. auto.
Qed.

Lemma table_fields_wf (soup : node) : Dict.wf (table_fields soup).
Proof.
  unfold table_fields.
  destruct (find_infobox soup); [apply scan_rows_wf|]; constructor.
Qed.

Lemma fields_unfold (soup : node) :
  fields soup
  = match find (has_class "geo") soup with
    | Some geo =>
        Dict.setdefault "Coordinates" (normalized_text geo)
          (table_fields soup)
    | None => table_fields soup
    end.
Proof. reflexivity. Qed.

Lemma fields_wf (soup : node) : Dict.wf (fields soup).
Proof.
  rewrite fields_unfold.
  destruct (find (has_class "geo") soup);
    auto using wf_setdefault, table_fields_wf.
Qed.

(** Every item of the dict comes from a stored row of the infobox or is
    the coordinate entry. *)
Lemma fields_in (soup : node) (k v : string) :
  In (k, v) (fields soup) ->
  k = "Coordinates"
  \/ exists infobox r,
       find_infobox soup = Some infobox
       /\ In r (find_all (has_name "tr") infobox)
       /\ stored r = Some (k, v).
Proof.
  rewrite fields_unfold.
  assert (Htable : In (k, v) (table_fields soup) ->
            exists infobox r,
              find_infobox soup = Some infobox
              /\ In r (find_all (has_name "tr") infobox)
              /\ stored r = Some (k, v)).
  { unfold table_fields.
    destruct (find_infobox soup) as [infobox|]; [|intros []].
    intro H. apply scan_rows_in in H. destruct H as [[]|(r & Hr & E)].
    exists infobox, r. auto. }
  destruct (find (has_class "geo") soup) as [geo|]; [|auto].
  unfold Dict.setdefault.
  destruct (Dict.get "Coordinates" (table_fields soup)); [auto|].
  intro H. apply in_app_or in H. destruct H as [H|[H|[]]]; auto.
  left. congruence.
Qed.

(** ** The selector *)

Lemma keys_app (d1 d2 : Dict.t) :
  Dict.keys (d1 ++ d2) = Dict.keys d1 ++ Dict.keys d2.
Proof. apply map_app. Qed.

Lemma lower_index_fold (ks : list string) :
  forall acc,
    NoDup (Dict.keys acc ++ ks) ->
    fold_left (fun d original_label =>
                 Dict.set original_label (PyStr.lower original_label) d)
      ks acc
    = acc ++ map (fun k => (k, PyStr.lower k)) ks.
Proof.
  induction ks as [|k ks IH]; simpl; intros acc H.
  - now rewrite app_nil_r.
  - assert (Hk : ~ In k (Dict.keys acc)).
    { apply NoDup_remove_2 in H. intro Hin. apply H.
      apply in_or_app. auto. }
    rewrite set_fresh by assumption.
    rewrite IH.
    + now rewrite <- app_assoc.
    + rewrite keys_app. simpl. now rewrite <- app_assoc.
Qed.

Lemma original_to_lower_map (info : Dict.t) :
  Dict.wf info -> original_to_lower info = map lowered info.
Proof.
  intro H. unfold original_to_lower.
  rewrite lower_index_fold by exact H.
  simpl. unfold Dict.keys. rewrite map_map. reflexivity.
Qed.

Lemma scan_labels_spec (info : Dict.t) (hint : string) :
  Dict.wf info ->
  forall items,
    incl items info ->
    scan_labels info (PyStr.lower hint) (map lowered items)
    = option_map snd (List.find (label_matches hint) items).
Proof.
  intros Hwf items. induction items as [|[k v] items IH]; intro Hincl.
  - reflexivity.
  - simpl. unfold label_matches at 1. simpl.
    destruct (PyStr.contains (PyStr.lower hint) (PyStr.lower k)).
    + simpl. apply in_get; auto. apply Hincl. now left.
    + apply IH. intros x Hx. apply Hincl. now right.
Qed.

Lemma scan_hints_spec (info : Dict.t) (hints : list string) :
  Dict.wf info ->
  scan_hints info (original_to_lower info) hints
  = first_hint_value info hints.
Proof.
  intro Hwf. rewrite original_to_lower_map by assumption.
  induction hints as [|h hints IH]; simpl; auto.
  rewrite scan_labels_spec by (auto using incl_refl).
  fold (first_match info h).
  destruct (first_match info h); auto.
Qed.

Lemma select_fold (info idx : Dict.t) (entries : list (string * list string)) :
  forall acc,
    NoDup (Dict.keys acc ++ map fst entries) ->
    fold_left (select_entry info idx) entries acc
    = acc ++ flat_map (entry_items (scan_hints info idx)) entries.
Proof.
  induction entries as [|[out hints] entries IH]; simpl; intros acc H.
  - now rewrite app_nil_r.
  - unfold entry_items at 1. simpl.
    destruct (scan_hints info idx hints) as [v|].
    + assert (Hk : ~ In out (Dict.keys acc)).
      { apply NoDup_remove_2 in H. intro Hin. apply H.
        apply in_or_app. auto. }
      rewrite set_fresh by assumption.
      rewrite IH.
      * now rewrite <- app_assoc.
      * rewrite keys_app. simpl. now rewrite <- app_assoc.
    + apply IH. now apply NoDup_remove_1 in H.
Qed.

Lemma canonical_keys_distinct : NoDup (map fst desired_to_label_hints).
Proof.
  simpl.
  repeat (constructor; [simpl; intuition discriminate|]).
  constructor.
Qed.

Lemma select_refines (info : Dict.t) :
  Dict.wf info -> select_interesting_fields info = select_spec info.
Proof.
  intro Hwf. unfold select_interesting_fields, select_spec.
  rewrite select_fold by exact canonical_keys_distinct.
  rewrite app_nil_l.
  apply flat_map_ext. intros [out hints]. unfold entry_items.
  now rewrite scan_hints_spec.
Qed.

(** On what the parser returns the selector is the reference selector. *)
Lemma select_parsed_refines (soup : node) :
  select_interesting_fields (fields soup) = select_spec (fields soup).
Proof. apply select_refines, fields_wf. Qed.

Lemma entry_items_keys (value_of : list string -> option string)
    (entries : list (string * list string)) (k : string) :
  In k (Dict.keys (flat_map (entry_items value_of) entries)) ->
  In k (map fst entries).
Proof.
  induction entries as [|[out hints] entries IH]; simpl; auto.
  rewrite keys_app. intro H. apply in_app_or in H.
  destruct H as [H|H]; auto.
  unfold entry_items in H. simpl in H.
  destruct (value_of hints); simpl in H; tauto.
Qed.

Lemma entry_items_get (value_of : list string -> option string)
    (entries : list (string * list string)) (out : string)
    (hints : list string) :
  NoDup (map fst entries) -> In (out, hints) entries ->
  Dict.get out (flat_map (entry_items value_of) entries) = value_of hints.
Proof.
  induction entries as [|[out' hints'] entries IH]; simpl; [tauto|].
  intros Hnd Hin. inversion Hnd as [|? ? Hnot Hnd']; subst.
  destruct Hin as [Heq|Hin].
  - injection Heq as -> ->. unfold entry_items at 1. simpl.
    destruct (value_of hints) as [v|]; simpl.
    + now rewrite String.eqb_refl.
    + apply get_none_notin. intro H. apply Hnot.
      eapply entry_items_keys; eauto.
  - assert (Hne : out' <> out).
    { intros ->. apply Hnot. change out with (fst (out, hints)).
      now apply in_map. }
    unfold entry_items at 1. simpl.
    destruct (value_of hints') as [v|]; simpl; auto.
    apply String.eqb_neq in Hne. rewrite Hne. auto.
Qed.

Lemma select_spec_get (info : Dict.t) (out : string) (hints : list string) :
  In (out, hints) desired_to_label_hints ->
  Dict.get out (select_spec info) = first_hint_value info hints.
Proof.
  intro H. unfold select_spec.
  exact (entry_items_get (first_hint_value info) _ _ _
           canonical_keys_distinct H).
Qed.

(** ** The selector follows the specification *)

(** C1.  For every label-to-value mapping and each of the 14 canonical
    entries, the selector goes through the entry's hints in order and,
    for each hint, through the labels in insertion order, and takes the
    value of the first label whose lowercased text contains the
    lowercased hint; the first hint that gives a value ends the scan, and
    an entry no hint of which matches a label is left out.  The whole
    result is that of the reference selector [select_spec].  A label
    ["Governing body"] gives the entry ["Mayor/Leader"] its value though
    it contains neither "Mayor" nor "Leader". *)
Theorem select_interesting_fields_first_match (info : Dict.t) :
  Dict.wf info ->
  select_interesting_fields info = select_spec info
  /\ length desired_to_label_hints = 14%nat
  /\ (forall out hints,
        In (out, hints) desired_to_label_hints ->
        Dict.get out (select_interesting_fields info)
        = first_hint_value info hints)
  /\ (forall v,
        select_interesting_fields [("Governing body", v)]
        = [("Mayor/Leader", v)])
  /\ PyStr.contains (PyStr.lower "Mayor") (PyStr.lower "Governing body")
     = false
  /\ PyStr.contains (PyStr.lower "Leader") (PyStr.lower "Governing body")
     = false
  /\ (forall hint label v,
        label_matches hint (label, v) = true
        <-> exists pre post,
              PyStr.lower label
              = (pre ++ PyStr.lower hint ++ post)%string).
Proof.
  intro Hwf. split; [now apply select_refines|].
  split; [reflexivity|].
  split.
  - intros out hints Hin. rewrite select_refines by assumption.
    now apply select_spec_get.
  - repeat split; apply contains_substring; assumption.
Qed.

Lemma select_interesting_fields_first_match_witness :
  Dict.wf [("Leader of the council", "A. Smith"); ("Mayor", "B. Jones")]
  /\ Dict.get "Mayor/Leader"
       (select_interesting_fields
          [("Leader of the council", "A. Smith"); ("Mayor", "B. Jones")])
     = Some "B. Jones".
Proof.
  assert (H : Dict.wf
                [("Leader of the council", "A. Smith"); ("Mayor", "B. Jones")]).
  { repeat constructor; simpl; intuition discriminate. }
  split; [exact H|].
  destruct (select_interesting_fields_first_match _ H) as (_ & _ & Hget & _).
  rewrite (Hget "Mayor/Leader" ["Mayor"; "Leader"; "Governing body"]).
  - reflexivity.
  - simpl. tauto.
Defined.

(** ** Documents without an infobox *)

Lemma none_in_descendants (p : node -> bool) (soup : node) :
  forallb (fun d => negb (p d)) (descendants soup) = true ->
  forall d, In d (descendants soup) -> p d = false.
Proof.
  intros H d Hd. rewrite forallb_forall in H.
  apply negb_true_iff. auto.
Qed.

Lemma no_infobox_table_check (soup : node) :
  forallb (fun d => negb (infobox_table d)) (descendants soup) = true ->
  no_infobox_table soup.
Proof. exact (none_in_descendants infobox_table soup). Qed.

Lemma no_geo_element_check (soup : node) :
  forallb (fun d => negb (has_class "geo" d)) (descendants soup) = true ->
  no_geo_element soup.
Proof. exact (none_in_descendants (has_class "geo") soup). Qed.

(** C2, as stated, fails: a page with no table at all and a coordinate
    marker gets a non-empty mapping, and the selector a non-empty result. *)
Lemma no_table_yet_fields_counterexample :
  ~ (no_infobox_table geo_only_page ->
     fields geo_only_page = []
     /\ select_interesting_fields (fields geo_only_page) = []).
Proof.
  intro H.
  assert (Ht : no_infobox_table geo_only_page)
    by (apply no_infobox_table_check; reflexivity).
  destruct (H Ht) as [E _].
  change (fields geo_only_page)
    with [("Coordinates", "35.68; 139.69")] in E.
  discriminate E.
Qed.

(** C2, amended.  For every document in which none of the three infobox
    class patterns matches a table and no element carries the geo
    marker class, the parser's mapping is empty and so is the selector's
    result on it. *)
Theorem no_table_no_geo_empty_fields (soup : node) :
  no_infobox_table soup -> no_geo_element soup ->
  fields soup = [] /\ select_interesting_fields (fields soup) = [].
Proof.
  intros Htable Hgeo.
  assert (E : fields soup = []).
  { rewrite fields_unfold. rewrite (find_absent _ _ Hgeo).
    unfold table_fields. now rewrite find_infobox_absent. }
  rewrite E. split; reflexivity.
Qed.

Lemma no_table_no_geo_empty_fields_witness :
  no_infobox_table plain_table_page /\ no_geo_element plain_table_page
  /\ fields plain_table_page = []
  /\ select_interesting_fields (fields plain_table_page) = [].
Proof.
  assert (Ht : no_infobox_table plain_table_page)
    by (apply no_infobox_table_check; reflexivity).
  assert (Hg : no_geo_element plain_table_page)
    by (apply no_geo_element_check; reflexivity).
  split; [exact Ht|]. split; [exact Hg|].
  exact (no_table_no_geo_empty_fields plain_table_page Ht Hg).
Defined.

(** ** Values of the mapping *)

(** The row guard keeps empty labels and values out of the table part. *)
Lemma table_fields_nonempty (soup : node) (k v : string) :
  In (k, v) (table_fields soup) -> k <> "" /\ v <> "".
Proof.
  unfold table_fields.
  destruct (find_infobox soup) as [infobox|]; [|intros []].
  intro H. apply scan_rows_in in H. destruct H as [[]|(r & _ & E)].
  now apply stored_nonempty in E.
Qed.

(** C3.  The coordinate entry is stored without the emptiness test of
    the rows: on a page whose geo element has no text the mapping holds
    the empty string under ["Coordinates"]. *)
Theorem empty_geo_text_stored :
  table_fields empty_geo_page = []
  /\ fields empty_geo_page = [("Coordinates", "")]
  /\ Dict.get "Coordinates" (fields empty_geo_page) = Some "".
Proof. repeat split. Qed.

(** ** Duplicate labels *)

(** C4, as stated, fails: of two rows labelled Elevation with different
    data cells, the second with a blank one, the mapping keeps the value
    of the first; the last row is skipped and overwrites nothing. *)
Lemma blank_last_row_counterexample :
  ~ (forall infobox before row after label value,
       find_infobox blank_second_elevation_page = Some infobox ->
       find_all (has_name "tr") infobox = before ++ row :: after ->
       row_label row = Some label -> row_value row = Some value ->
       (exists r other,
          In r before /\ row_label r = Some label
          /\ row_value r = Some other /\ other <> value) ->
       (forall r, In r after -> row_label r <> Some label) ->
       Dict.get label (fields blank_second_elevation_page) = Some value).
Proof.
  intro H.
  specialize (H (infobox_of elevation_rows)
                [tr "Elevation" "10 m"] (tr "Elevation" " ") []
                "Elevation" "").
  assert (E : Dict.get "Elevation" (fields blank_second_elevation_page)
              = Some "").
  { apply H; try reflexivity.
    - exists (tr "Elevation" "10 m"), "10 m".
      repeat split; [now left | discriminate].
    - intros r []. }
  discriminate E.
Qed.

(** A stored row that no later row overrides decides the value under
    its label, in the table part and in the final mapping. *)
Lemma stored_row_get (soup infobox : node)
    (before after : list node) (row : node) (label value : string) :
  find_infobox soup = Some infobox ->
  find_all (has_name "tr") infobox = before ++ row :: after ->
  stored row = Some (label, value) ->
  (forall r, In r after -> forall v, stored r <> Some (label, v)) ->
  Dict.get label (table_fields soup) = Some value
  /\ Dict.get label (fields soup) = Some value.
Proof.
  intros Hbox Hrows Hrow Hafter.
  assert (E : Dict.get label (table_fields soup) = Some value).
  { unfold table_fields. rewrite Hbox, Hrows.
    now apply scan_rows_last. }
  split; [exact E|].
  rewrite fields_unfold.
  destruct (find (has_class "geo") soup) as [geo|]; [|exact E].
  destruct (string_dec "Coordinates" label) as [<-|Hne].
  - rewrite get_setdefault. now rewrite E.
  - now rewrite get_setdefault_other.
Qed.

(** C4, amended.  In the mapping of a document with an infobox, the
    value under a label is that of the last row, in the top-to-bottom
    scan, that is stored under it: the last row that has a header and a
    data cell whose normalized texts are the label and a non-empty
    value.  Rows with an empty normalized label or value are skipped. *)
Theorem last_stored_row_wins (soup infobox : node)
    (before after : list node) (row : node) (label value : string) :
  find_infobox soup = Some infobox ->
  find_all (has_name "tr") infobox = before ++ row :: after ->
  stored row = Some (label, value) ->
  (forall r, In r after -> forall v, stored r <> Some (label, v)) ->
  Dict.get label (table_fields soup) = Some value
  /\ Dict.get label (fields soup) = Some value.
Proof. exact (stored_row_get soup infobox before after row label value). Qed.

Lemma last_stored_row_wins_witness :
  Dict.get "Elevation" (fields two_elevations_page) = Some "12 m".
Proof.
  refine (proj2 (last_stored_row_wins two_elevations_page
            (infobox_of [tr "Elevation" "10 m"; tr "Elevation" "12 m";
                         tr "Elevation" " "])
            [tr "Elevation" "10 m"] [tr "Elevation" " "]
            (tr "Elevation" "12 m") "Elevation" "12 m" _ _ _ _)).
  - reflexivity.
  - reflexivity.
  - reflexivity.
  - intros r [<-|[]] v. vm_compute. discriminate.
Defined.

(** ** The coordinate marker *)

(** C5.  In a document with an element of class geo, let [geo] be the
    first one in document order.  The parser adds its normalized text
    under ["Coordinates"], after the items of the table, exactly when
    the table scan stored nothing under that key; when the scan did, the
    mapping is that of the scan and the table's value stands. *)
Theorem geo_inserted_iff_absent (soup d : node) :
  In d (descendants soup) -> has_class "geo" d = true ->
  exists before geo after,
    descendants soup = before ++ geo :: after
    /\ (forall x, In x before -> has_class "geo" x = false)
    /\ has_class "geo" geo = true
    /\ (fields soup
        = table_fields soup ++ [("Coordinates", normalized_text geo)]
        <-> Dict.get "Coordinates" (table_fields soup) = None)
    /\ (Dict.get "Coordinates" (table_fields soup) = None ->
        Dict.get "Coordinates" (fields soup) = Some (normalized_text geo))
    /\ (forall v,
          Dict.get "Coordinates" (table_fields soup) = Some v ->
          fields soup = table_fields soup
          /\ Dict.get "Coordinates" (fields soup) = Some v).
Proof.
  intros Hin Hd.
  destruct (find_present _ _ _ Hin Hd) as (geo & Hfind & _ & Hgeo).
  destruct (list_find_split _ _ _ Hfind) as (before & after & Hsplit & Hb).
  exists before, geo, after.
  repeat (split; [assumption|]).
  rewrite fields_unfold, Hfind. unfold Dict.setdefault.
  destruct (Dict.get "Coordinates" (table_fields soup)) as [v0|] eqn:E.
  - split; [split; [|discriminate]|split; [discriminate|]].
    + intro H. apply (f_equal (@length _)) in H.
      rewrite length_app in H. simpl in H. lia.
    + intros v [= <-]. auto.
  - split; [tauto|]. split; [|discriminate].
    intros _. apply get_none_notin in E.
    rewrite <- (set_fresh _ (normalized_text geo) _ E).
    apply get_set_same.
Qed.

Lemma geo_inserted_iff_absent_witness :
  fields table_and_geo_page = [("Coordinates", "1 N 2 E")].
Proof.
  destruct (geo_inserted_iff_absent table_and_geo_page (geo_span "1.0; 2.0"))
    as (before & geo & after & _ & _ & _ & _ & _ & Hkeep).
  - simpl. tauto.
  - reflexivity.
  - destruct (Hkeep "1 N 2 E") as [E _]; [reflexivity|].
    rewrite E. reflexivity.
Defined.

(** C10.  The mapping of every document with an element of class geo
    has the key ["Coordinates"], so it is not empty, whether or not an
    infobox table was found. *)
Theorem geo_gives_coordinates (soup d : node) :
  In d (descendants soup) -> has_class "geo" d = true ->
  In "Coordinates" (Dict.keys (fields soup))
  /\ (exists v, Dict.get "Coordinates" (fields soup) = Some v)
  /\ fields soup <> []
  /\ Dict.truthy (fields soup) = true.
Proof.
  intros Hin Hd.
  destruct (find_present _ _ _ Hin Hd) as (geo & Hfind & _ & _).
  assert (E : exists v, Dict.get "Coordinates" (fields soup) = Some v).
  { rewrite fields_unfold, Hfind, get_setdefault.
    destruct (Dict.get "Coordinates" (table_fields soup)) as [v|];
      eauto. }
  destruct E as [v E].
  assert (Hk : In "Coordinates" (Dict.keys (fields soup))).
  { apply get_in in E. change "Coordinates" with (fst ("Coordinates", v)).
    now apply in_map. }
  split; [exact Hk|]. split; [eauto|].
  destruct (fields soup); [destruct Hk|].
  split; [discriminate | reflexivity].
Qed.

Lemma geo_gives_coordinates_witness :
  In "Coordinates" (Dict.keys (fields geo_only_page)).
Proof.
  refine (proj1 (geo_gives_coordinates geo_only_page
                   (geo_span "35.68; 139.69") _ _)).
  - simpl. tauto.
  - reflexivity.
Defined.

(** ** The population row *)

Lemma list_find_unique {A} (p : A -> bool) (l : list A) (x : A) :
  In x l -> p x = true ->
  (forall y, In y l -> p y = true -> y = x) ->
  List.find p l = Some x.
Proof.
  induction l as [|a l IH]; simpl; [tauto|].
  intros Hin Hx Huniq.
  destruct (p a) eqn:E.
  - f_equal. apply Huniq; auto.
  - destruct Hin as [->|Hin]; [congruence|].
    apply IH; auto.
Qed.

(** The normalized text of a cell is a function of its text strings. *)
Lemma normalized_text_strings (cell : node) (strings : list string) :
  flat_map text_of (descendants cell) = strings ->
  normalized_text cell
  = PyStr.join " "
      (PyStr.split
         (PyStr.join " "
            (List.filter PyStr.truthy (map PyStr.strip strings)))).
Proof. intros <-. reflexivity. Qed.

(** C6.  A row of the matched table whose header cell has the text
    "Population" and whose data cell has the text "  38,000,000  \n "
    is stored as "38,000,000" under the key "Population", and the
    selector gives that value under the canonical key "Population";
    here for every document in which no other row of the table is stored
    under a label that contains "population". *)
Theorem population_row_parsed_and_selected (soup infobox : node)
    (before after : list node) (row header_cell data_cell : node) :
  find_infobox soup = Some infobox ->
  find_all (has_name "tr") infobox = before ++ row :: after ->
  find (has_name "th") row = Some header_cell ->
  find (has_name "td") row = Some data_cell ->
  flat_map text_of (descendants header_cell) = ["Population"] ->
  flat_map text_of (descendants data_cell) = [population_text] ->
  (forall r, In r (before ++ after) ->
     forall l v, stored r = Some (l, v) ->
       label_matches "Population" (l, v) = false) ->
  normalized_text data_cell = "38,000,000"
  /\ Dict.get "Population" (fields soup) = Some "38,000,000"
  /\ Dict.get "Population" (select_interesting_fields (fields soup))
     = Some "38,000,000".
Proof.
  intros Hbox Hrows Hth Htd Hhead Hdata Hothers.
  assert (Eh : normalized_text header_cell = "Population")
    by (rewrite (normalized_text_strings _ _ Hhead); reflexivity).
  assert (Ed : normalized_text data_cell = "38,000,000")
    by (rewrite (normalized_text_strings _ _ Hdata); reflexivity).
  assert (Hrow : stored row = Some ("Population", "38,000,000")).
  { unfold stored, row_label, row_value. rewrite Hth, Htd. simpl.
    rewrite Eh, Ed. reflexivity. }
  assert (Hget : Dict.get "Population" (fields soup) = Some "38,000,000").
  { apply (stored_row_get soup infobox before after row); auto.
    intros r Hr v E.
    assert (Hr' : In r (before ++ after))
      by (apply in_or_app; now right).
    specialize (Hothers r Hr' _ _ E). discriminate Hothers. }
  split; [exact Ed|]. split; [exact Hget|].
  rewrite select_refines by apply fields_wf.
  rewrite (select_spec_get (fields soup) "Population"
             ["Population"; "Population Total"; "Population ("])
    by (simpl; tauto).
  simpl. unfold first_match.
  rewrite (list_find_unique (label_matches "Population") (fields soup)
             ("Population", "38,000,000")).
  - reflexivity.
  - now apply get_in.
  - reflexivity.
  - intros [k v] Hin Hmatch.
    destruct (fields_in soup k v Hin) as [->|(infobox' & r & Hb & Hr & E)].
    + discriminate Hmatch.
    + rewrite Hbox in Hb. injection Hb as <-.
      rewrite Hrows in Hr. apply in_elt_inv in Hr.
      destruct Hr as [<-|Hr].
      * congruence.
      * rewrite (Hothers r Hr _ _ E) in Hmatch. discriminate.
Qed.

Lemma population_row_parsed_and_selected_witness :
  Dict.get "Population" (fields population_page) = Some "38,000,000"
  /\ Dict.get "Population"
       (select_interesting_fields (fields population_page))
     = Some "38,000,000".
Proof.
  refine (proj2 (population_row_parsed_and_selected population_page
            (infobox_of [tr "Population" population_text]) [] []
            (tr "Population" population_text)
            (Tag "th" [] [NavigableString "Population"])
            (Tag "td" [] [NavigableString population_text])
            _ _ _ _ _ _ _)); try reflexivity.
  intros r [].
Defined.

(** ** The fetcher *)

Lemma canonical_name_length (s : string) :
  String.length (canonical_name s) = String.length s.
Proof.
  unfold canonical_name.
  induction s as [|c r IH]; simpl; auto.
  destruct (Ascii.eqb c " "); simpl; now rewrite IH.
Qed.

Lemma canonical_name_get (s : string) :
  forall i,
    String.get i (canonical_name s) = option_map underscore (String.get i s).
Proof.
  unfold canonical_name.
  induction s as [|c r IH]; intro i; simpl; auto.
  destruct (Ascii.eqb c " ") eqn:E; destruct i as [|i]; simpl;
    rewrite ?IH; unfold underscore; rewrite ?E; reflexivity.
Qed.

(** What the fetcher does, by the outcome of the request. *)
Lemma fetch_city_page_html_run
    (requests_get : string -> Dict.t -> Z -> exn + Requests.Response)
    (city_name : string) (w : world) :
  fetch_city_page_html requests_get city_name w
  = let w' := World (stdout w) (requested w ++ [request_url city_name]) in
    match requests_get (request_url city_name) headers 20%Z with
    | inl e => (Raise e, w')
    | inr response =>
        match http_error_msg response with
        | Some msg => (Raise (HTTPError msg), w')
        | None =>
            (Return (Requests.text response, Requests.url response), w')
        end
    end.
Proof.
  unfold fetch_city_page_html, bind, http_get, raise_for_status. simpl.
  destruct (requests_get _ _ _) as [e|response]; [reflexivity|].
  destruct (http_error_msg response); reflexivity.
Qed.

Lemma http_error_msg_status (response : Requests.Response) :
  (400 <= Requests.status_code response < 600)%Z
  <-> exists msg, http_error_msg response = Some msg.
Proof.
  unfold http_error_msg.
  destruct (Z.leb_spec 400 (Requests.status_code response));
    destruct (Z.ltb_spec (Requests.status_code response) 500);
    destruct (Z.leb_spec 500 (Requests.status_code response));
    destruct (Z.ltb_spec (Requests.status_code response) 600);
    simpl; split; intro Hyp; eauto; try lia;
    destruct Hyp as [msg Hyp]; discriminate Hyp.
Qed.

(** C9.  The name put into the request path has the length of the place
    name and, at each position, the underscore where the place name has
    a space and the character of the place name otherwise; the URL is
    the fixed prefix followed by that name, with no other escaping, and
    it is the URL the fetcher requests. *)
Theorem request_path_replaces_spaces_only (city_name : string) :
  String.length (canonical_name city_name) = String.length city_name
  /\ (forall i,
        String.get i (canonical_name city_name)
        = option_map underscore (String.get i city_name))
  /\ request_url city_name
     = ("https://en.wikipedia.org/wiki/" ++ canonical_name city_name)%string
  /\ (forall requests_get w,
        requested (snd (fetch_city_page_html requests_get city_name w))
        = requested w ++ [request_url city_name]).
Proof.
  split; [apply canonical_name_length|].
  split; [apply canonical_name_get|].
  split; [reflexivity|].
  intros requests_get w. rewrite fetch_city_page_html_run. simpl.
  destruct (requests_get _ _ _) as [e|response]; [reflexivity|].
  destruct (http_error_msg response); reflexivity.
Qed.

(** ** The command line *)

Section Main.

Variable requests_get : string -> Dict.t -> Z -> exn + Requests.Response.
Variable BeautifulSoup : string -> node.

Lemma run_usage (argv : list string) :
  (length argv < 2)%nat ->
  run requests_get BeautifulSoup argv
  = (SysExit 1%Z, World [usage_message] []).
Proof.
  intro H. unfold run, main, bind, when.
  apply Nat.ltb_lt in H. rewrite H. reflexivity.
Qed.

Lemma run_fetched (argv : list string) :
  (2 <= length argv)%nat ->
  let city_name := PyStr.join " " (tl argv) in
  run requests_get BeautifulSoup argv
  = match requests_get (request_url city_name) headers 20%Z with
    | inl (HTTPError m) =>
        (SysExit 2%Z,
         World ["HTTP error fetching page: " ++ m]%string
           [request_url city_name])
    | inl (RequestException m) =>
        (SysExit 2%Z,
         World ["Network error fetching page: " ++ m]%string
           [request_url city_name])
    | inr response =>
        match http_error_msg response with
        | Some m =>
            (SysExit 2%Z,
             World ["HTTP error fetching page: " ++ m]%string
               [request_url city_name])
        | None =>
            let info_map :=
              fields (BeautifulSoup (Requests.text response)) in
            let w :=
              World (heading BeautifulSoup city_name response)
                [request_url city_name] in
            match info_map with
            | [] =>
                (SysExit 0%Z,
                 World
                   (heading BeautifulSoup city_name response
                    ++ [no_infobox_message])
                   [request_url city_name])
            | _ :: _ =>
                match select_interesting_fields info_map with
                | [] =>
                    (SysExit 0%Z,
                     World
                       (heading BeautifulSoup city_name response
                        ++ [no_fields_message])
                       [request_url city_name])
                | interesting =>
                    for_each interesting
                      (fun '(key, value) =>
                         print (key ++ ": " ++ value)%string) w
                end
            end
        end
    end.
Proof.
  intros H city_name. unfold run, main.
  assert (E : (length argv <? 2)%nat = false) by (apply Nat.ltb_ge; lia).
  rewrite E. fold city_name.
  cbv [when bind ret try_except].
  rewrite fetch_city_page_html_run.
  cbv [stdout requested app].
  destruct (requests_get (request_url city_name) headers 20%Z)
    as [[m|m]|response]; try reflexivity.
  destruct (http_error_msg response) as [m|]; [reflexivity|].
  unfold heading, fields, parse_infobox.
  destruct (parse_soup (BeautifulSoup (Requests.text response)))
    as [[page_title info_map] soup].
  cbv [fst snd print sys_exit stdout requested Dict.truthy negb].
  destruct info_map as [|item info_map]; [reflexivity|].
  destruct (select_interesting_fields (item :: info_map)); reflexivity.
Qed.

(** C8.  Run with no place name, the program prints the usage message,
    ends with exit status 1 and requests nothing. *)
Theorem missing_argument_exits_1 (argv : list string) :
  (length argv < 2)%nat ->
  printed requests_get BeautifulSoup argv = [usage_message]
  /\ exit_code requests_get BeautifulSoup argv = 1%Z
  /\ requests_made requests_get BeautifulSoup argv = [].
Proof.
  intro H. unfold printed, exit_code, requests_made.
  rewrite run_usage by assumption. repeat split.
Qed.

(** C7.  Run with a place name, the program ends with exit status 2 on
    every failure of the fetch, having printed one line: one that starts
    "HTTP error fetching page: " when the failure is an error status
    (raised by the client or found by [raise_for_status]), one that
    starts "Network error fetching page: " for any other exception of
    the client.  It ends with exit status 0 when the parsed mapping is
    empty and when the mapping is not empty but the selector's result
    is, each time after a message of its own. *)
Theorem transport_failure_exits_2_no_data_exits_0 (argv : list string) :
  (2 <= length argv)%nat ->
  let city_name := PyStr.join " " (tl argv) in
  let outcome := requests_get (request_url city_name) headers 20%Z in
  let exit_code := exit_code requests_get BeautifulSoup argv in
  let printed := printed requests_get BeautifulSoup argv in
  (forall m,
     outcome = inl (HTTPError m) ->
     exit_code = 2%Z
     /\ printed = ["HTTP error fetching page: " ++ m]%string)
  /\ (forall response,
        outcome = inr response ->
        (400 <= Requests.status_code response < 600)%Z ->
        exit_code = 2%Z
        /\ exists m,
             http_error_msg response = Some m
             /\ printed = ["HTTP error fetching page: " ++ m]%string)
  /\ (forall m,
        outcome = inl (RequestException m) ->
        exit_code = 2%Z
        /\ printed = ["Network error fetching page: " ++ m]%string)
  /\ (forall response,
        outcome = inr response ->
        ~ (400 <= Requests.status_code response < 600)%Z ->
        let info_map := fields (BeautifulSoup (Requests.text response)) in
        (info_map = [] ->
         exit_code = 0%Z
         /\ printed
            = heading BeautifulSoup city_name response
              ++ [no_infobox_message])
        /\ (info_map <> [] ->
            select_interesting_fields info_map = [] ->
            exit_code = 0%Z
            /\ printed
               = heading BeautifulSoup city_name response
                 ++ [no_fields_message]))
  /\ (forall m m',
        ("HTTP error fetching page: " ++ m)%string
        <> ("Network error fetching page: " ++ m')%string)
  /\ no_infobox_message <> no_fields_message.
Proof.
  intros H city_name outcome code out.
  subst code out. unfold exit_code, printed.
  rewrite (run_fetched argv H). fold city_name. fold outcome.
  split; [|split; [|split; [|split; [|split]]]].
  - intros m ->. split; reflexivity.
  - intros response -> Hstatus.
    apply http_error_msg_status in Hstatus. destruct Hstatus as [m Hm].
    rewrite Hm. split; [reflexivity|]. exists m. split; reflexivity.
  - intros m ->. split; reflexivity.
  - intros response -> Hstatus.
    destruct (http_error_msg response) as [m|] eqn:Hm.
    { elim Hstatus. apply http_error_msg_status. eauto. }
    cbv zeta. split.
    + intros E. rewrite E. split; reflexivity.
    + intros Hne E.
      destruct (fields (BeautifulSoup (Requests.text response)));
        [now elim Hne|].
      rewrite E. split; reflexivity.
  - intros m m'. simpl. discriminate.
  - discriminate.
Qed.

End Main.

Lemma missing_argument_exits_1_witness :
  exit_code offline (parses_to (document [])) ["scrape_city_infobox.py"]
  = 1%Z
  /\ requests_made offline (parses_to (document []))
       ["scrape_city_infobox.py"] = [].
Proof.
  refine (proj2 (missing_argument_exits_1 offline (parses_to (document []))
                   ["scrape_city_infobox.py"] _)).
  simpl. lia.
Defined.

Lemma transport_failure_exits_2_no_data_exits_0_witness :
  exit_code offline (parses_to (document []))
    ["scrape_city_infobox.py"; "New"; "York"] = 2%Z
  /\ printed offline (parses_to (document []))
       ["scrape_city_infobox.py"; "New"; "York"]
     = ["Network error fetching page: connection refused"].
Proof.
  assert (H : (2 <= length ["scrape_city_infobox.py"; "New"; "York"])%nat)
    by (simpl; lia).
  destruct (transport_failure_exits_2_no_data_exits_0
              offline (parses_to (document []))
              ["scrape_city_infobox.py"; "New"; "York"] H)
    as (_ & _ & Hnet & _).
  exact (Hnet "connection refused" eq_refl).
Defined.

(** ** Splitting and joining *)

Lemma flush_cons (c : ascii) (acc : list ascii) :
  PyStr.flush (c :: acc) = [string_of_list_ascii (rev (c :: acc))].
Proof. reflexivity. Qed.

Lemma split_from_space (a b : string) (c : ascii) :
  PyStr.isspace c = true ->
  forall acc,
    PyStr.split_from acc (a ++ String c b)
    = PyStr.split_from acc a ++ PyStr.split b.
Proof.
  intro Hc. induction a as [|x a IH]; intro acc; simpl.
  - now rewrite Hc.
  - destruct (PyStr.isspace x).
    + now rewrite IH, app_assoc.
    + apply IH.
Qed.

Lemma split_from_word (w : string) :
  Forall (fun c => PyStr.isspace c = false) (list_ascii_of_string w) ->
  forall acc,
    PyStr.split_from acc w
    = PyStr.flush (rev (list_ascii_of_string w) ++ acc).
Proof.
  induction w as [|x w IH]; simpl; intros H acc; [reflexivity|].
  inversion H as [|? ? Hx Hw]; subst. rewrite Hx.
  rewrite IH by assumption. now rewrite <- app_assoc.
Qed.

Lemma split_word (w : string) : word w -> PyStr.split w = [w].
Proof.
  intros [Hne Hclean]. unfold PyStr.split.
  rewrite split_from_word by assumption. rewrite app_nil_r.
  destruct w as [|x w]; [now elim Hne|].
  destruct (rev (list_ascii_of_string (String x w))) as [|y l] eqn:E.
  - apply (f_equal (@length _)) in E. rewrite length_rev in E.
    discriminate E.
  - rewrite flush_cons, <- E, rev_involutive.
    now rewrite string_of_list_ascii_of_string.
Qed.

Lemma flush_words (acc : list ascii) :
  Forall (fun c => PyStr.isspace c = false) acc ->
  Forall word (PyStr.flush acc).
Proof.
  intro H. destruct acc as [|c acc]; [constructor|].
  rewrite flush_cons. constructor; [|constructor]. split.
  - intro E. apply (f_equal list_ascii_of_string) in E.
    rewrite list_ascii_of_string_of_list_ascii in E.
    apply (f_equal (@length _)) in E. rewrite length_rev in E.
    discriminate E.
  - rewrite list_ascii_of_string_of_list_ascii.
    apply Forall_rev. exact H.
Qed.

Lemma split_from_words (s : string) :
  forall acc,
    Forall (fun c => PyStr.isspace c = false) acc ->
    Forall word (PyStr.split_from acc s).
Proof.
  induction s as [|x s IH]; simpl; intros acc H.
  - now apply flush_words.
  - destruct (PyStr.isspace x) eqn:Hx.
    + apply Forall_app. split; [now apply flush_words|].
      apply IH. constructor.
    + apply IH. now constructor.
Qed.

Lemma split_words (s : string) : Forall word (PyStr.split s).
Proof. apply split_from_words. constructor. Qed.

Lemma split_join (ws : list string) :
  Forall word ws -> PyStr.split (PyStr.join " " ws) = ws.
Proof.
  induction ws as [|w ws IH]; intro H; [reflexivity|].
  inversion H as [|? ? Hw Hws]; subst.
  destruct ws as [|w' ws].
  - now apply split_word.
  - change (PyStr.join " " (w :: w' :: ws))
      with (w ++ String " " (PyStr.join " " (w' :: ws)))%string.
    unfold PyStr.split at 1.
    rewrite split_from_space by reflexivity.
    fold (PyStr.split w). rewrite split_word by assumption.
    now rewrite IH.
Qed.

Lemma split_lstrip (s : string) :
  PyStr.split (PyStr.lstrip s) = PyStr.split s.
Proof.
  induction s as [|x s IH]; [reflexivity|].
  change (PyStr.lstrip (String x s))
    with (if PyStr.isspace x then PyStr.lstrip s else String x s).
  destruct (PyStr.isspace x) eqn:Hx; [|reflexivity].
  rewrite IH. unfold PyStr.split. simpl. now rewrite Hx.
Qed.

Lemma split_from_rstrip (s : string) :
  forall acc,
    PyStr.split_from acc (PyStr.rstrip s) = PyStr.split_from acc s.
Proof.
  induction s as [|x s IH]; intro acc; [reflexivity|].
  simpl. destruct (PyStr.rstrip s) as [|y r] eqn:E.
  - destruct (PyStr.isspace x) eqn:Hx; simpl.
    + rewrite <- IH. simpl. now rewrite app_nil_r.
    + rewrite Hx. now rewrite <- IH.
  - simpl. destruct (PyStr.isspace x); now rewrite <- IH.
Qed.

Lemma split_strip (s : string) : PyStr.split (PyStr.strip s) = PyStr.split s.
Proof.
  unfold PyStr.strip, PyStr.split at 1.
  rewrite split_from_rstrip. apply split_lstrip.
Qed.

(** Stripping the strings, dropping the empty ones and joining with a
    space does not change the words. *)
Lemma split_stripped (strings : list string) :
  PyStr.split
    (PyStr.join " " (List.filter PyStr.truthy (map PyStr.strip strings)))
  = flat_map PyStr.split strings.
Proof.
  induction strings as [|s strings IH]; [reflexivity|].
  simpl. rewrite <- (split_strip s).
  destruct (PyStr.strip s) as [|x t] eqn:E; simpl.
  - exact IH.
  - destruct (List.filter PyStr.truthy (map PyStr.strip strings))
      as [|t' ts] eqn:F.
    + rewrite <- IH. simpl. now rewrite app_nil_r.
    + rewrite <- IH.
      change (PyStr.split (String x t ++ String " " (PyStr.join " " (t' :: ts)))
              = PyStr.split (String x t)
                ++ PyStr.split (PyStr.join " " (t' :: ts))).
      unfold PyStr.split at 1.
      now rewrite split_from_space by reflexivity.
Qed.

(** ** Normalized text *)

Lemma normalized_text_words (cell : node) :
  PyStr.split (get_text " " cell)
  = flat_map PyStr.split (flat_map text_of (descendants cell)).
Proof. unfold get_text, stripped_strings. apply split_stripped. Qed.

Lemma normalized_fixpoint (s : string) :
  PyStr.join " " (PyStr.split (PyStr.join " " (PyStr.split s)))
  = PyStr.join " " (PyStr.split s).
Proof. now rewrite split_join by apply split_words. Qed.

(** X1.  The normalized text of a cell is made of the words of its text
    strings, in document order, with one space between two words: the
    stripping and the separator of [get_text] add nothing to what
    [split] and [join] do.  Its own words are those words. *)
Theorem normalized_text_joins_words (cell : node) :
  let words := flat_map PyStr.split (flat_map text_of (descendants cell)) in
  normalized_text cell = PyStr.join " " words
  /\ PyStr.split (normalized_text cell) = words
  /\ Forall word words.
Proof.
  intro words. unfold normalized_text.
  rewrite normalized_text_words. fold words.
  assert (H : Forall word words).
  { unfold words. rewrite <- normalized_text_words. apply split_words. }
  split; [reflexivity|]. split; [now apply split_join | exact H].
Qed.

(** ** Where the items of the mapping come from *)

Lemma stored_texts (row : node) (k v : string) :
  stored row = Some (k, v) ->
  exists header_cell data_cell,
    find (has_name "th") row = Some header_cell
    /\ find (has_name "td") row = Some data_cell
    /\ k = normalized_text header_cell /\ v = normalized_text data_cell.
Proof.
  unfold stored, row_label, row_value.
  destruct (find (has_name "th") row) as [h|]; [|discriminate].
  destruct (find (has_name "td") row) as [d|]; [|discriminate].
  simpl. destruct (PyStr.truthy _ && PyStr.truthy _); [|discriminate].
  intro H. injection H as <- <-. exists h, d. auto.
Qed.

Lemma table_fields_in (soup : node) (k v : string) :
  In (k, v) (table_fields soup) ->
  exists infobox row,
    find_infobox soup = Some infobox
    /\ In row (find_all (has_name "tr") infobox)
    /\ stored row = Some (k, v).
Proof.
  unfold table_fields.
  destruct (find_infobox soup) as [infobox|]; [|intros []].
  intro H. apply scan_rows_in in H. destruct H as [[]|(r & Hr & E)].
  exists infobox, r. auto.
Qed.

Lemma fields_cases (soup : node) (k v : string) :
  In (k, v) (fields soup) ->
  In (k, v) (table_fields soup)
  \/ exists geo,
       find (has_class "geo") soup = Some geo
       /\ Dict.get "Coordinates" (table_fields soup) = None
       /\ k = "Coordinates" /\ v = normalized_text geo.
Proof.
  rewrite fields_unfold.
  destruct (find (has_class "geo") soup) as [geo|]; [|auto].
  unfold Dict.setdefault.
  destruct (Dict.get "Coordinates" (table_fields soup)) eqn:E; [auto|].
  intro H. apply in_app_or in H. destruct H as [H|[H|[]]]; [auto|].
  right. exists geo. injection H as <- <-. auto.
Qed.

(** X2.  Every item of the parser's mapping is either stored by a row of
    the chosen infobox, as the normalized texts of the row's first
    header cell and first data cell, or it is the entry under
    ["Coordinates"] made from the first element of class geo, which
    happens only when no row stored that key. *)
Theorem fields_provenance (soup : node) (k v : string) :
  In (k, v) (fields soup) ->
  (exists infobox row header_cell data_cell,
     find_infobox soup = Some infobox
     /\ In row (find_all (has_name "tr") infobox)
     /\ find (has_name "th") row = Some header_cell
     /\ find (has_name "td") row = Some data_cell
     /\ k = normalized_text header_cell
     /\ v = normalized_text data_cell)
  \/ (exists geo,
        find (has_class "geo") soup = Some geo
        /\ Dict.get "Coordinates" (table_fields soup) = None
        /\ k = "Coordinates" /\ v = normalized_text geo).
Proof.
  intro H. destruct (fields_cases soup k v H) as [Ht|Hg]; [left|now right].
  destruct (table_fields_in soup k v Ht) as (infobox & row & Hb & Hr & E).
  destruct (stored_texts row k v E) as (h & d & Hh & Hd & -> & ->).
  exists infobox, row, h, d. repeat split; assumption.
Qed.

Lemma fields_provenance_witness :
  exists geo,
    find (has_class "geo") geo_only_page = Some geo
    /\ "35.68; 139.69" = normalized_text geo.
Proof.
  destruct (fields_provenance geo_only_page "Coordinates" "35.68; 139.69")
    as [(infobox & _ & _ & _ & Hb & _)|(geo & Hg & _ & _ & Hv)].
  - simpl. tauto.
  - discriminate Hb.
  - exists geo. auto.
Defined.

(** X3.  The keys of the parser's mapping are pairwise distinct and none
    is empty; a value is empty only under the key ["Coordinates"], and
    only when that entry comes from the geo element. *)
Theorem fields_keys_distinct_nonempty (soup : node) :
  NoDup (Dict.keys (fields soup))
  /\ (forall k v,
        In (k, v) (fields soup) ->
        k <> ""
        /\ (v = "" ->
            k = "Coordinates"
            /\ Dict.get "Coordinates" (table_fields soup) = None
            /\ exists geo, find (has_class "geo") soup = Some geo)).
Proof.
  split; [exact (fields_wf soup)|].
  intros k v H. destruct (fields_cases soup k v H) as [Ht|Hg].
  - destruct (table_fields_nonempty soup k v Ht) as [Hk Hv].
    split; [exact Hk|]. intro E. contradiction.
  - destruct Hg as (geo & Hfind & Hnone & -> & ->).
    split; [discriminate|]. intros _. eauto.
Qed.

(** X4.  Every key and every value of the parser's mapping is
    whitespace-normalized: it is its own words joined by single spaces,
    so it has no leading, trailing or repeated whitespace and no
    whitespace other than the space. *)
Theorem fields_whitespace_normalized (soup : node) (k v : string) :
  In (k, v) (fields soup) ->
  PyStr.join " " (PyStr.split k) = k /\ PyStr.join " " (PyStr.split v) = v.
Proof.
  intro H. destruct (fields_cases soup k v H) as [Ht|Hg].
  - destruct (table_fields_in soup k v Ht) as (infobox & row & _ & _ & E).
    destruct (stored_texts row k v E) as (h & d & _ & _ & -> & ->).
    split; apply normalized_fixpoint.
  - destruct Hg as (geo & _ & _ & -> & ->).
    split; [reflexivity | apply normalized_fixpoint].
Qed.

Lemma fields_whitespace_normalized_witness :
  PyStr.join " " (PyStr.split "38,000,000") = "38,000,000".
Proof.
  refine (proj2 (fields_whitespace_normalized population_page
                   "Population" "38,000,000" _)).
  simpl. tauto.
Defined.

(** ** Which table is the infobox *)

Lemma classes_words (n : node) (values : list string) :
  classes n = Some values -> Forall word values.
Proof.
  destruct n as [s|s|name attrs contents]; simpl; try discriminate.
  destruct (Dict.get "class" attrs); simpl; [|discriminate].
  intros [= <-]. apply split_words.
Qed.

(** A tag that passes the filter for a class string of several words
    has each of the words among its classes. *)
Lemma has_class_joined (want : string) (n : node) :
  has_class want n = true ->
  forall w, In w (PyStr.split want) -> has_class w n = true.
Proof.
  unfold has_class. destruct (classes n) as [values|] eqn:E; [|discriminate].
  pose proof (classes_words n values E) as Hw.
  intros H w Hin. apply orb_true_iff. left.
  apply existsb_exists. exists w. split; [|apply String.eqb_refl].
  apply orb_true_iff in H. destruct H as [H|H].
  - apply existsb_exists in H. destruct H as (x & Hx & Ex).
    apply String.eqb_eq in Ex. subst x.
    rewrite Forall_forall in Hw.
    rewrite (split_word want (Hw want Hx)) in Hin.
    destruct Hin as [<-|[]]. exact Hx.
  - apply String.eqb_eq in H. subst want.
    now rewrite split_join in Hin.
Qed.

Lemma infobox_table_class (n : node) :
  infobox_table n = table_with_class "infobox" n.
Proof.
  unfold infobox_table, table_with_class.
  destruct (has_name "table" n); [simpl|reflexivity].
  destruct (has_class "infobox" n) eqn:E; [apply orb_true_r|].
  rewrite orb_false_r.
  destruct (has_class "infobox geography vcard" n) eqn:E1.
  { rewrite (has_class_joined _ n E1 "infobox") in E;
      [discriminate | simpl; tauto]. }
  destruct (has_class "infobox vcard" n) eqn:E2; [|reflexivity].
  rewrite (has_class_joined _ n E2 "infobox") in E;
    [discriminate | simpl; tauto].
Qed.

Lemma find_infobox_some (soup t : node) :
  find_infobox soup = Some t ->
  In t (descendants soup) /\ infobox_table t = true.
Proof.
  unfold find_infobox, or_else, infobox_table.
  destruct (find (table_with_class "infobox geography vcard") soup) eqn:E1.
  { intros [= <-]. apply find_some in E1. destruct E1 as [Hin ->]. auto. }
  destruct (find (table_with_class "infobox vcard") soup) eqn:E2.
  { intros [= <-]. apply find_some in E2. destruct E2 as [Hin ->].
    rewrite orb_true_r. auto. }
  intro E3. apply find_some in E3. destruct E3 as [Hin ->].
  rewrite orb_true_r. auto.
Qed.

(** X5.  The parser finds an infobox exactly when some table of the
    document has ["infobox"] among its classes: the two longer class
    patterns only choose which such table is taken.  The table found is
    a table of the document with that class. *)
Theorem infobox_found_iff_class (soup : node) :
  ((exists t, find_infobox soup = Some t)
   <-> exists d,
         In d (descendants soup)
         /\ has_name "table" d = true /\ has_class "infobox" d = true)
  /\ (forall t,
        find_infobox soup = Some t ->
        In t (descendants soup)
        /\ has_name "table" t = true /\ has_class "infobox" t = true).
Proof.
  assert (Hsome : forall t,
            find_infobox soup = Some t ->
            In t (descendants soup)
            /\ has_name "table" t = true /\ has_class "infobox" t = true).
  { intros t H. apply find_infobox_some in H. destruct H as [Hin Ht].
    rewrite infobox_table_class in Ht. apply andb_true_iff in Ht. tauto. }
  split; [|exact Hsome]. split.
  - intros [t H]. exists t. auto.
  - intros (d & Hin & Hn & Hc).
    destruct (find_infobox soup) as [t|] eqn:E; [eauto|].
    assert (Hd : find (table_with_class "infobox") soup = None).
    { unfold find_infobox, or_else in E.
      destruct (find (table_with_class "infobox geography vcard") soup);
        [discriminate|].
      destruct (find (table_with_class "infobox vcard") soup);
        [discriminate | exact E]. }
    pose proof (find_none _ _ Hd d Hin) as Hf.
    unfold table_with_class in Hf. rewrite Hn, Hc in Hf. discriminate.
Qed.

(** ** What the selector returns *)

Lemma select_spec_keys (info : Dict.t) (entries : list (string * list string)) :
  Dict.keys (flat_map (entry_items (first_hint_value info)) entries)
  = map fst (List.filter (has_value info) entries).
Proof.
  induction entries as [|[out hints] entries IH]; [reflexivity|].
  simpl. rewrite keys_app, IH. unfold entry_items, has_value. simpl.
  destruct (first_hint_value info hints); reflexivity.
Qed.

Lemma select_spec_entry_items (info : Dict.t) :
  select_spec info
  = flat_map (entry_items (first_hint_value info)) desired_to_label_hints.
Proof. reflexivity. Qed.

Lemma NoDup_map_filter {A B} (f : A -> B) (p : A -> bool) (l : list A) :
  NoDup (map f l) -> NoDup (map f (List.filter p l)).
Proof.
  induction l as [|a l IH]; simpl; intro H; [constructor|].
  inversion H as [|? ? Hnot Hnd]; subst.
  destruct (p a); simpl; auto.
  constructor; auto. intro Hin. apply Hnot.
  apply in_map_iff in Hin. destruct Hin as (x & <- & Hx).
  apply in_map. apply filter_In in Hx. tauto.
Qed.

(** X6.  The keys of the selector's result are the canonical keys of the
    entries that get a value, in the order of the canonical list
    whatever the order of the input: so they are pairwise distinct, all
    canonical, and at most 14. *)
Theorem selected_keys_in_canonical_order (info : Dict.t) :
  Dict.wf info ->
  Dict.keys (select_interesting_fields info)
  = map fst (List.filter (has_value info) desired_to_label_hints)
  /\ NoDup (Dict.keys (select_interesting_fields info))
  /\ incl (Dict.keys (select_interesting_fields info))
       (map fst desired_to_label_hints)
  /\ (length (select_interesting_fields info) <= 14)%nat.
Proof.
  intro Hwf.
  assert (E : Dict.keys (select_interesting_fields info)
              = map fst (List.filter (has_value info) desired_to_label_hints)).
  { rewrite select_refines by assumption.
    rewrite select_spec_entry_items. apply select_spec_keys. }
  split; [exact E|]. rewrite E. split; [|split].
  - apply NoDup_map_filter, canonical_keys_distinct.
  - intros k Hk. apply in_map_iff in Hk. destruct Hk as (e & <- & He).
    apply in_map. apply filter_In in He. tauto.
  - rewrite <- (length_map fst (select_interesting_fields info)).
    fold (Dict.keys (select_interesting_fields info)).
    rewrite E, length_map.
    apply (Nat.le_trans _ _ _ (filter_length_le _ _)). reflexivity.
Qed.

Lemma selected_keys_in_canonical_order_witness :
  Dict.keys
    (select_interesting_fields [("Population", "9"); ("Country", "Japan")])
  = ["Country"; "Population"].
Proof.
  assert (H : Dict.wf [("Population", "9"); ("Country", "Japan")]).
  { repeat constructor; simpl; intuition discriminate. }
  rewrite (proj1 (selected_keys_in_canonical_order _ H)).
  reflexivity.
Defined.

Lemma first_hint_value_some (info : Dict.t) (hints : list string)
    (v : string) :
  first_hint_value info hints = Some v ->
  exists hint label,
    In hint hints /\ In (label, v) info
    /\ label_matches hint (label, v) = true.
Proof.
  induction hints as [|h hints IH]; simpl; [discriminate|].
  unfold first_match at 1.
  destruct (List.find (label_matches h) info) as [[label x]|] eqn:E; simpl.
  - intros [= <-]. apply find_some in E. exists h, label. tauto.
  - intro H. destruct (IH H) as (hint & label & Hin & Hl & Hm).
    exists hint, label. tauto.
Qed.

(** X7.  Every item of the selector's result has a canonical key and a
    value of the input: the value of a label whose lowercased text
    contains one of that key's lowercased hints.  The selector invents
    no key and no value. *)
Theorem selected_value_from_matching_label (info : Dict.t)
    (out v : string) :
  Dict.wf info ->
  In (out, v) (select_interesting_fields info) ->
  exists hints hint label,
    In (out, hints) desired_to_label_hints
    /\ In hint hints
    /\ In (label, v) info
    /\ PyStr.contains (PyStr.lower hint) (PyStr.lower label) = true.
Proof.
  intros Hwf H. rewrite select_refines in H by assumption.
  unfold select_spec in H. apply in_flat_map in H.
  destruct H as ([out' hints] & Hentry & Hitem). simpl in Hitem.
  destruct (first_hint_value info hints) as [v'|] eqn:E; [|destruct Hitem].
  destruct Hitem as [[= <- <-]|[]].
  destruct (first_hint_value_some info hints v' E)
    as (hint & label & Hh & Hl & Hm).
  exists hints, hint, label. auto.
Qed.

Lemma selected_value_from_matching_label_witness :
  exists hints hint label,
    In ("Mayor/Leader", hints) desired_to_label_hints
    /\ In hint hints
    /\ In (label, "Council") [("Governing body", "Council")]
    /\ PyStr.contains (PyStr.lower hint) (PyStr.lower label) = true.
Proof.
  apply (selected_value_from_matching_label
           [("Governing body", "Council")] "Mayor/Leader" "Council").
  - repeat constructor; simpl; tauto.
  - simpl. tauto.
Defined.

Lemma first_match_up_to_case (a b : Dict.t) (hint : string) :
  Forall2 same_up_to_case a b -> first_match a hint = first_match b hint.
Proof.
  unfold first_match.
  induction 1 as [|x y a b [Hl Hv] _ IH]; [reflexivity|].
  simpl. unfold label_matches at 1 3. rewrite Hl.
  destruct (PyStr.contains _ _); simpl; [now rewrite Hv | exact IH].
Qed.

(** X8.  The selector does not see the case of the labels: two mappings
    with the same values under labels that are equal when lowercased,
    in the same order, give the same result. *)
Theorem select_ignores_label_case (a b : Dict.t) :
  Dict.wf a -> Dict.wf b ->
  Forall2 same_up_to_case a b ->
  select_interesting_fields a = select_interesting_fields b.
Proof.
  intros Ha Hb H. rewrite !select_refines by assumption.
  unfold select_spec. apply flat_map_ext. intros [out hints]. simpl.
  assert (E : first_hint_value a hints = first_hint_value b hints).
  { induction hints as [|h hints IH]; [reflexivity|]. simpl.
    rewrite (first_match_up_to_case a b h H), IH. reflexivity. }
  now rewrite E.
Qed.

Lemma select_ignores_label_case_witness :
  select_interesting_fields [("POPULATION", "9"); ("time ZONE", "JST")]
  = select_interesting_fields [("Population", "9"); ("Time zone", "JST")].
Proof.
  apply select_ignores_label_case.
  - repeat constructor; simpl; intuition discriminate.
  - repeat constructor; simpl; intuition discriminate.
  - repeat constructor.
Defined.

(** ** Hints that never decide *)

Lemma str_app_assoc (a b c : string) :
  ((a ++ b) ++ c = a ++ (b ++ c))%string.
Proof. induction a as [|x a IH]; simpl; [reflexivity | now rewrite IH]. Qed.

Lemma contains_trans (a b c : string) :
  PyStr.contains a b = true -> PyStr.contains b c = true ->
  PyStr.contains a c = true.
Proof.
  rewrite !contains_substring.
  intros (p & q & ->) (p' & q' & ->).
  exists (p' ++ p)%string, (q ++ q')%string.
  now rewrite !str_app_assoc.
Qed.

(** When no label matches a hint, none matches a hint that contains it. *)
Lemma first_match_none_longer (info : Dict.t) (short long : string) :
  PyStr.contains (PyStr.lower short) (PyStr.lower long) = true ->
  first_match info short = None -> first_match info long = None.
Proof.
  intros Hsub. unfold first_match.
  destruct (List.find (label_matches short) info) eqn:E; [discriminate|].
  intros _.
  destruct (List.find (label_matches long) info) as [item|] eqn:F;
    [|reflexivity].
  apply find_some in F. destruct F as [Hin Hm].
  pose proof (find_none _ _ E item Hin) as Hn.
  unfold label_matches in Hm, Hn.
  rewrite (contains_trans _ _ _ Hsub Hm) in Hn. discriminate.
Qed.

(** X9.  Three hints of the canonical list never decide a value.  The
    value under "Population" is that of the first label that contains
    "population": the hints "Population Total" and "Population (" match
    only labels the hint "Population" matches first.  The value under
    "Area total" is the same without its third hint "Area Total". *)
Theorem redundant_hints (info : Dict.t) :
  Dict.wf info ->
  Dict.get "Population" (select_interesting_fields info)
  = first_match info "Population"
  /\ Dict.get "Area total" (select_interesting_fields info)
     = first_hint_value info ["Area total"; "Area"].
Proof.
  intro Hwf. rewrite select_refines by assumption. split.
  - rewrite (select_spec_get info "Population"
               ["Population"; "Population Total"; "Population ("])
      by (simpl; tauto).
    simpl. destruct (first_match info "Population") eqn:E; [reflexivity|].
    rewrite (first_match_none_longer info "Population" "Population Total")
      by (reflexivity || assumption).
    rewrite (first_match_none_longer info "Population" "Population (")
      by (reflexivity || assumption).
    reflexivity.
  - rewrite (select_spec_get info "Area total"
               ["Area total"; "Area"; "Area Total"])
      by (simpl; tauto).
    simpl. destruct (first_match info "Area total"); [reflexivity|].
    destruct (first_match info "Area") eqn:E; [reflexivity|].
    rewrite (first_match_none_longer info "Area" "Area Total")
      by (reflexivity || assumption).
    reflexivity.
Qed.

Lemma redundant_hints_witness :
  Dict.get "Population"
    (select_interesting_fields
       [("Population (2020)", "14 million"); ("Population Total", "13")])
  = first_match
      [("Population (2020)", "14 million"); ("Population Total", "13")]
      "Population".
Proof.
  refine (proj1 (redundant_hints _ _)).
  repeat constructor; simpl; intuition discriminate.
Defined.

(** ** More on the fetcher *)

(** X10.  The fetcher makes its one request and prints nothing.  It
    returns exactly when the client gives a response whose status is
    not in 400..599, and then returns that response's text and URL; it
    raises the client's exception when the client raises, an
    [HTTPError] when the status is in 400..599, and never exits. *)
Theorem fetch_returns_iff_status_ok
    (requests_get : string -> Dict.t -> Z -> exn + Requests.Response)
    (city_name : string) (w : world) :
  let outcome := requests_get (request_url city_name) headers 20%Z in
  let r := fetch_city_page_html requests_get city_name w in
  stdout (snd r) = stdout w
  /\ (forall html_text resolved_url,
        fst r = Return (html_text, resolved_url)
        <-> exists response,
              outcome = inr response
              /\ ~ (400 <= Requests.status_code response < 600)%Z
              /\ html_text = Requests.text response
              /\ resolved_url = Requests.url response)
  /\ (forall e,
        fst r = Raise e
        <-> outcome = inl e
            \/ exists response msg,
                 outcome = inr response
                 /\ (400 <= Requests.status_code response < 600)%Z
                 /\ http_error_msg response = Some msg
                 /\ e = HTTPError msg)
  /\ (forall code, fst r <> SysExit code).
Proof.
  intros outcome r. subst r. rewrite fetch_city_page_html_run.
  fold outcome. cbv zeta.
  destruct outcome as [e|response] eqn:E.
  - simpl. split; [reflexivity|]. split; [|split].
    + intros h u. split; [discriminate|].
      intros (response & H & _). discriminate H.
    + intros e'. split.
      * intros [= <-]. now left.
      * intros [[= <-]|(response & msg & H & _)];
          [reflexivity | discriminate H].
    + discriminate.
  - pose proof (http_error_msg_status response) as Hs.
    destruct (http_error_msg response) as [msg|] eqn:Hm; simpl.
    + assert (Hin : (400 <= Requests.status_code response < 600)%Z)
        by (apply Hs; eauto).
      split; [reflexivity|]. split; [|split].
      * intros h u. split; [discriminate|].
        intros (r' & [= <-] & Hout & _). contradiction.
      * intros e'. split.
        -- intros [= <-]. right. exists response, msg. auto.
        -- intros [H|(r' & m & [= <-] & _ & Hm' & ->)];
             [discriminate H|]. congruence.
      * discriminate.
    + assert (Hout : ~ (400 <= Requests.status_code response < 600)%Z).
      { intro H. apply Hs in H. destruct H as [m H]. discriminate H. }
      split; [reflexivity|]. split; [|split].
      * intros h u. split.
        -- intros [= <- <-]. exists response. auto.
        -- intros (r' & [= <-] & _ & -> & ->). reflexivity.
      * intros e'. split; [discriminate|].
        intros [H|(r' & m & [= <-] & _ & Hm' & _)];
          [discriminate H | congruence].
      * discriminate.
Qed.

Lemma replace1_app (old : ascii) (new a b : string) :
  PyStr.replace1 old new (a ++ b)
  = (PyStr.replace1 old new a ++ PyStr.replace1 old new b)%string.
Proof.
  induction a as [|x a IH]; simpl; [reflexivity|].
  destruct (Ascii.eqb x old); rewrite IH; simpl;
    [now rewrite str_app_assoc | reflexivity].
Qed.

Lemma canonical_name_join (args : list string) :
  canonical_name (PyStr.join " " args)
  = PyStr.join "_" (map canonical_name args).
Proof.
  unfold canonical_name.
  induction args as [|a args IH]; [reflexivity|].
  destruct args as [|b args]; [reflexivity|].
  change (PyStr.join " " (a :: b :: args))
    with (a ++ String " " (PyStr.join " " (b :: args)))%string.
  rewrite replace1_app.
  change (PyStr.replace1 " " "_" (String " " (PyStr.join " " (b :: args))))
    with (String "_" (PyStr.replace1 " " "_" (PyStr.join " " (b :: args)))).
  rewrite IH. reflexivity.
Qed.

Lemma canonical_name_idempotent (s : string) :
  canonical_name (canonical_name s) = canonical_name s.
Proof.
  unfold canonical_name.
  induction s as [|c s IH]; simpl; [reflexivity|].
  destruct (Ascii.eqb c " ") eqn:E; simpl; [now rewrite IH|].
  now rewrite E, IH.
Qed.

(** X11.  The path name of several arguments joined by spaces is the
    path names of the arguments joined by underscores, so a place name
    given as one argument or as several gives the same request.  The
    path name has no space at any position, and replacing again changes
    nothing. *)
Theorem canonical_name_of_arguments (args : list string) (s : string) :
  canonical_name (PyStr.join " " args)
  = PyStr.join "_" (map canonical_name args)
  /\ (forall i, String.get i (canonical_name s) <> Some " "%char)
  /\ canonical_name (canonical_name s) = canonical_name s.
Proof.
  split; [apply canonical_name_join|].
  split; [|apply canonical_name_idempotent].
  intro i. rewrite canonical_name_get.
  destruct (String.get i s) as [c|]; simpl; [|discriminate].
  unfold underscore. destruct (Ascii.eqb c " ") eqn:E; [discriminate|].
  intros [= H]. subst c. discriminate E.
Qed.

(** ** More on the command line *)

Lemma for_each_print (items : Dict.t) :
  forall w,
    for_each items (fun '(key, value) => print (key ++ ": " ++ value)%string) w
    = (Return tt, World (stdout w ++ map field_line items) (requested w)).
Proof.
  induction items as [|[k v] items IH]; intro w; simpl.
  - rewrite app_nil_r. now destruct w.
  - unfold bind, print at 1. rewrite IH. simpl.
    now rewrite <- app_assoc.
Qed.

Lemma geo_coordinates_key (soup d : node) :
  In d (descendants soup) -> has_class "geo" d = true ->
  exists v, In ("Coordinates", v) (fields soup).
Proof.
  intros Hin Hd.
  destruct (find_present _ _ _ Hin Hd) as (geo & Hfind & _ & _).
  assert (E : exists v, Dict.get "Coordinates" (fields soup) = Some v).
  { rewrite fields_unfold, Hfind, get_setdefault.
    destruct (Dict.get "Coordinates" (table_fields soup)); eauto. }
  destruct E as [v E]. exists v. now apply get_in.
Qed.

Lemma select_spec_last (info : Dict.t) :
  select_spec info
  = flat_map (entry_items (first_hint_value info))
      (removelast desired_to_label_hints)
    ++ match first_match info "Coordinates" with
       | Some v => [("Coordinates", v)]
       | None => []
       end.
Proof.
  rewrite select_spec_entry_items.
  change desired_to_label_hints
    with (removelast desired_to_label_hints
          ++ [("Coordinates", ["Coordinates"])]) at 1.
  rewrite flat_map_app. f_equal. simpl. unfold entry_items. simpl.
  destruct (first_match info "Coordinates"); reflexivity.
Qed.

Section Runs.

Variable requests_get : string -> Dict.t -> Z -> exn + Requests.Response.
Variable BeautifulSoup : string -> node.

(** The run after a successful fetch, whatever was parsed. *)
Lemma run_success (argv : list string) (response : Requests.Response) :
  (2 <= length argv)%nat ->
  let city_name := PyStr.join " " (tl argv) in
  requests_get (request_url city_name) headers 20%Z = inr response ->
  http_error_msg response = None ->
  let info_map := fields (BeautifulSoup (Requests.text response)) in
  let head := heading BeautifulSoup city_name response in
  run requests_get BeautifulSoup argv
  = match info_map with
    | [] =>
        (SysExit 0%Z,
         World (head ++ [no_infobox_message]) [request_url city_name])
    | _ :: _ =>
        match select_interesting_fields info_map with
        | [] =>
            (SysExit 0%Z,
             World (head ++ [no_fields_message]) [request_url city_name])
        | interesting =>
            (Return tt,
             World (head ++ map field_line interesting)
               [request_url city_name])
        end
    end.
Proof.
  intros H city_name Hget Hmsg info_map head.
  rewrite (run_fetched requests_get BeautifulSoup argv H).
  fold city_name. rewrite Hget, Hmsg. cbv zeta. fold info_map. fold head.
  destruct info_map; [reflexivity|].
  destruct (select_interesting_fields _); [reflexivity|].
  now rewrite for_each_print.
Qed.


(** X13.  When the fetch succeeds and the selector finds something, the
    program returns normally after printing the title line, the source
    line and one line "key: value" for each selected field, in the
    order of the selector's result. *)
Theorem selected_fields_printed_in_order (argv : list string)
    (response : Requests.Response) :
  (2 <= length argv)%nat ->
  let city_name := PyStr.join " " (tl argv) in
  requests_get (request_url city_name) headers 20%Z = inr response ->
  ~ (400 <= Requests.status_code response < 600)%Z ->
  let interesting :=
    select_interesting_fields
      (fields (BeautifulSoup (Requests.text response))) in
  interesting <> [] ->
  run requests_get BeautifulSoup argv
  = (Return tt,
     World (heading BeautifulSoup city_name response
            ++ map field_line interesting)
       [request_url city_name]).
Proof.
  intros H city_name Hget Hok interesting Hne.
  assert (Hm : http_error_msg response = None).
  { destruct (http_error_msg response) as [m|] eqn:E; [|reflexivity].
    elim Hok. apply http_error_msg_status. eauto. }
  rewrite (run_success argv response H Hget Hm). subst interesting.
  destruct (fields (BeautifulSoup (Requests.text response))) as [|item info].
  - now elim Hne.
  - destruct (select_interesting_fields (item :: info));
      [now elim Hne | reflexivity].
Qed.

(** X14.  When the fetch succeeds on a page with an element of class
    geo, the program returns normally with exit status 0 and the last
    line it prints is the coordinates line, whose value is that of the
    first label of the mapping that contains "coordinates"; the run
    takes neither of the two no-data exits. *)
Theorem geo_page_prints_coordinates (argv : list string)
    (response : Requests.Response) (d : node) :
  (2 <= length argv)%nat ->
  let city_name := PyStr.join " " (tl argv) in
  requests_get (request_url city_name) headers 20%Z = inr response ->
  ~ (400 <= Requests.status_code response < 600)%Z ->
  let soup := BeautifulSoup (Requests.text response) in
  In d (descendants soup) -> has_class "geo" d = true ->
  exists others v,
    first_match (fields soup) "Coordinates" = Some v
    /\ run requests_get BeautifulSoup argv
       = (Return tt,
          World (heading BeautifulSoup city_name response
                 ++ map field_line others
                 ++ ["Coordinates: " ++ v]%string)
            [request_url city_name]).
Proof.
  intros H city_name Hget Hok soup Hin Hd.
  destruct (geo_coordinates_key soup d Hin Hd) as [x Hx].
  assert (Hv : exists v, first_match (fields soup) "Coordinates" = Some v).
  { unfold first_match.
    destruct (List.find (label_matches "Coordinates") (fields soup))
      as [[l v]|] eqn:E; [simpl; eauto|].
    pose proof (find_none _ _ E _ Hx) as Hn. discriminate Hn. }
  destruct Hv as [v Hv].
  exists (flat_map (entry_items (first_hint_value (fields soup)))
            (removelast desired_to_label_hints)), v.
  split; [exact Hv|].
  assert (Hsel : select_interesting_fields (fields soup)
                 = flat_map (entry_items (first_hint_value (fields soup)))
                     (removelast desired_to_label_hints)
                   ++ [("Coordinates", v)]).
  { rewrite select_parsed_refines, select_spec_last. now rewrite Hv. }
  assert (Hm : http_error_msg response = None).
  { destruct (http_error_msg response) as [m|] eqn:E; [|reflexivity].
    elim Hok. apply http_error_msg_status. eauto. }
  rewrite (run_success argv response H Hget Hm). fold soup.
  destruct (fields soup) as [|item info] eqn:Ef; [destruct Hx|].
  rewrite Hsel.
  destruct (flat_map _ _ ++ [("Coordinates", v)]) as [|y ys] eqn:F.
  - apply (f_equal (@length _)) in F. rewrite length_app in F.
    simpl in F. lia.
  - rewrite <- F, map_app. reflexivity.
Qed.

End Runs.

Lemma selected_fields_printed_in_order_witness :
  run (serves (ok_response "<html>")) (parses_to population_page)
    ["scrape_city_infobox.py"; "Tokyo"]
  = (Return tt,
     World ["Title: Tokyo"; "Source: https://en.wikipedia.org/wiki/Tokyo";
            "Population: 38,000,000"]
       ["https://en.wikipedia.org/wiki/Tokyo"]).
Proof.
  refine (selected_fields_printed_in_order
            (serves (ok_response "<html>")) (parses_to population_page)
            ["scrape_city_infobox.py"; "Tokyo"] (ok_response "<html>")
            _ _ _ _).
  - simpl. lia.
  - reflexivity.
  - simpl. lia.
  - discriminate.
Defined.

Lemma geo_page_prints_coordinates_witness :
  exists others v,
    first_match (fields coordinates_page) "Coordinates" = Some v
    /\ run (serves (ok_response "<html>")) (parses_to coordinates_page)
         ["scrape_city_infobox.py"; "Tokyo"]
       = (Return tt,
          World (heading (parses_to coordinates_page) "Tokyo"
                   (ok_response "<html>")
                 ++ map field_line others
                 ++ ["Coordinates: " ++ v]%string)
            ["https://en.wikipedia.org/wiki/Tokyo"]).
Proof.
  refine (geo_page_prints_coordinates
            (serves (ok_response "<html>")) (parses_to coordinates_page)
            ["scrape_city_infobox.py"; "Tokyo"] (ok_response "<html>")
            (geo_span "35.68; 139.69") _ _ _ _ _).
  - simpl. lia.
  - reflexivity.
  - simpl. lia.
  - simpl. tauto.
  - reflexivity.
Defined.

(** ** The order and the emptiness of the mapping *)

Lemma scan_rows_app (rows rows' : list node) (info : Dict.t) :
  fold_left scan_row (rows ++ rows') info
  = fold_left scan_row rows' (fold_left scan_row rows info).
Proof. apply fold_left_app. Qed.

Lemma stored_labels_app (rows rows' : list node) :
  stored_labels (rows ++ rows') = stored_labels rows ++ stored_labels rows'.
Proof. apply flat_map_app. Qed.

Lemma first_occurrences_snoc (l : list string) (k : string) :
  first_occurrences (l ++ [k])
  = if in_dec string_dec k (first_occurrences l)
    then first_occurrences l
    else first_occurrences l ++ [k].
Proof.
  unfold first_occurrences. rewrite rev_app_distr. simpl.
  destruct (in_dec string_dec k (rev l)) as [Hin|Hnot];
    destruct (in_dec string_dec k (rev (nodup string_dec (rev l))))
      as [Hin'|Hnot']; try reflexivity.
  - elim Hnot'. rewrite <- in_rev, nodup_In. exact Hin.
  - rewrite <- in_rev, nodup_In in Hin'. contradiction.
Qed.

Lemma scan_rows_keys (rows : list node) :
  Dict.keys (fold_left scan_row rows [])
  = first_occurrences (stored_labels rows).
Proof.
  induction rows as [|row rows IH] using rev_ind; [reflexivity|].
  rewrite scan_rows_app, stored_labels_app.
  change (fold_left scan_row [row] (fold_left scan_row rows []))
    with (scan_row (fold_left scan_row rows []) row).
  change (stored_labels [row])
    with (match stored row with
          | Some (label, _) => [label]
          | None => []
          end ++ []).
  rewrite scan_row_stored.
  destruct (stored row) as [[l v]|]; simpl.
  - rewrite first_occurrences_snoc, keys_set, IH. reflexivity.
  - now rewrite app_nil_r.
Qed.

Lemma stored_label_key (soup infobox row : node) (l v : string) :
  find_infobox soup = Some infobox ->
  In row (find_all (has_name "tr") infobox) ->
  stored row = Some (l, v) ->
  In l (Dict.keys (table_fields soup)).
Proof.
  intros Hbox Hrow Hs. unfold table_fields. rewrite Hbox, scan_rows_keys.
  unfold first_occurrences. rewrite <- in_rev, nodup_In, <- in_rev.
  apply in_split in Hrow. destruct Hrow as (before & after & ->).
  rewrite stored_labels_app. apply in_or_app. right.
  unfold stored_labels. simpl. rewrite Hs. now left.
Qed.

(** X15.  The keys of the table part of the mapping are the labels the
    rows store, in scan order, each at the place of its first row: a
    later row with the same label changes the value, not the order.
    With a geo element and no stored "Coordinates" label, the key
    "Coordinates" comes last. *)
Theorem fields_keys_first_occurrences (soup infobox : node) :
  find_infobox soup = Some infobox ->
  let labels := stored_labels (find_all (has_name "tr") infobox) in
  Dict.keys (table_fields soup) = first_occurrences labels
  /\ Dict.keys (fields soup)
     = first_occurrences labels
       ++ match find (has_class "geo") soup with
          | Some _ =>
              if in_dec string_dec "Coordinates" labels
              then [] else ["Coordinates"]
          | None => []
          end.
Proof.
  intros Hbox labels.
  assert (E : Dict.keys (table_fields soup) = first_occurrences labels).
  { unfold table_fields. rewrite Hbox. apply scan_rows_keys. }
  split; [exact E|].
  rewrite fields_unfold.
  destruct (find (has_class "geo") soup) as [geo|];
    [|now rewrite app_nil_r].
  unfold Dict.setdefault.
  assert (Hiff : In "Coordinates" labels
                 <-> In "Coordinates" (Dict.keys (table_fields soup))).
  { rewrite E. unfold first_occurrences. rewrite <- in_rev, nodup_In.
    apply in_rev. }
  destruct (Dict.get "Coordinates" (table_fields soup)) eqn:G.
  - destruct (in_dec string_dec "Coordinates" labels) as [Hin|Hnot].
    + now rewrite app_nil_r.
    + elim Hnot. apply Hiff. apply get_in in G.
      change "Coordinates" with (fst ("Coordinates", s)).
      now apply in_map.
  - apply get_none_notin in G.
    destruct (in_dec string_dec "Coordinates" labels) as [Hin|Hnot].
    + elim G. now apply Hiff.
    + rewrite keys_app, E. reflexivity.
Qed.

Lemma fields_keys_first_occurrences_witness :
  Dict.keys (fields two_elevations_page) = ["Elevation"].
Proof.
  refine (proj2 (fields_keys_first_occurrences two_elevations_page
            (infobox_of [tr "Elevation" "10 m"; tr "Elevation" "12 m";
                         tr "Elevation" " "]) _)).
  reflexivity.
Defined.

Lemma scan_rows_nothing (rows : list node) :
  (forall row, In row rows -> stored row = None) ->
  forall info, fold_left scan_row rows info = info.
Proof.
  induction rows as [|row rows IH]; simpl; intros H info; [reflexivity|].
  rewrite scan_row_stored, (H row) by auto. apply IH. auto.
Qed.

(** X16.  The parser's mapping is empty, which is when the program
    prints that it found no infobox, exactly when the document has no
    element of class geo and no row of the chosen infobox, if there is
    one, is stored: a page whose infobox has no row with both cells
    filled is reported like a page without an infobox. *)
Theorem fields_empty_iff (soup : node) :
  fields soup = []
  <-> no_geo_element soup
      /\ (forall infobox row,
            find_infobox soup = Some infobox ->
            In row (find_all (has_name "tr") infobox) ->
            stored row = None).
Proof.
  split.
  - intro E. split.
    + intros d Hin. destruct (has_class "geo" d) eqn:Hd; [|reflexivity].
      destruct (geo_coordinates_key soup d Hin Hd) as [v Hv].
      rewrite E in Hv. destruct Hv.
    + intros infobox row Hbox Hrow.
      destruct (stored row) as [[l v]|] eqn:Hs; [|reflexivity].
      pose proof (stored_label_key soup infobox row l v Hbox Hrow Hs) as Hl.
      rewrite fields_unfold in E.
      destruct (find (has_class "geo") soup) as [geo|].
      * unfold Dict.setdefault in E.
        destruct (Dict.get "Coordinates" (table_fields soup)).
        -- rewrite E in Hl. destruct Hl.
        -- apply app_eq_nil in E. destruct E as [_ E]. discriminate E.
      * rewrite E in Hl. destruct Hl.
  - intros [Hgeo Hrows]. rewrite fields_unfold.
    rewrite (find_absent _ _ Hgeo). unfold table_fields.
    destruct (find_infobox soup) as [infobox|] eqn:Hbox; [|reflexivity].
    apply scan_rows_nothing. intros row Hrow. now apply (Hrows infobox).
Qed.

(** ** Worked examples *)

Example split_ex :
  PyStr.split (String "009" " a  b" ++ String "010" "c ") = ["a"; "b"; "c"].
Proof. reflexivity. Qed.

Example strip_ex : PyStr.strip "  38,000,000  " = "38,000,000".
Proof. reflexivity. Qed.

Example lower_ex : PyStr.lower "Governing Body (2)" = "governing body (2)".
Proof. reflexivity. Qed.

Example contains_ex :
  PyStr.contains "area" "total area" = true /\ PyStr.contains "x" "" = false
  /\ PyStr.contains "" "" = true.
Proof. repeat split. Qed.

Example parse_population_page :
  fields population_page = [("Population", "38,000,000")].
Proof. reflexivity. Qed.

Example run_population_page :
  run (serves (ok_response "<html>")) (parses_to population_page)
    ["scrape_city_infobox.py"; "Tokyo"]
  = (Return tt,
     World ["Title: Tokyo"; "Source: https://en.wikipedia.org/wiki/Tokyo";
            "Population: 38,000,000"]
       ["https://en.wikipedia.org/wiki/Tokyo"]).
Proof. reflexivity. Qed.

Example run_not_found :
  run (serves not_found_response) (parses_to (document []))
    ["scrape_city_infobox.py"; "Nowhere"]
  = (SysExit 2,
     World ["HTTP error fetching page: 404 Client Error: Not Found for url: "
            ++ "https://en.wikipedia.org/wiki/Nowhere"]%string
       ["https://en.wikipedia.org/wiki/Nowhere"]).
Proof. reflexivity. Qed.

Example run_unmatched_labels :
  run (serves (ok_response "<html>")) (parses_to unmatched_labels_page)
    ["scrape_city_infobox.py"; "Tokyo"]
  = (SysExit 0,
     World ["Title: Tokyo"; "Source: https://en.wikipedia.org/wiki/Tokyo";
            no_fields_message]
       ["https://en.wikipedia.org/wiki/Tokyo"]).
Proof. reflexivity. Qed.

Example run_no_infobox :
  run (serves (ok_response "<html>")) (parses_to (document []))
    ["scrape_city_infobox.py"; "New"; "York"]
  = (SysExit 0,
     World ["Title: New York";
            "Source: https://en.wikipedia.org/wiki/Tokyo";
            no_infobox_message]
       ["https://en.wikipedia.org/wiki/New_York"]).
Proof. reflexivity. Qed.
